(** * MXR protocol tool: the CAN frame codec

    A shallow embedding of [src/services/canProtocolService.ts] and of the
    constant tables it imports from [types.ts], followed by the properties
    of the codec stated in the specification. *)

From Stdlib Require Import ZArith List String Ascii Bool Lia.
From Stdlib Require Import Floats.SpecFloat.
Import ListNotations.
Open Scope Z_scope.

(** ** ECMAScript primitives used by the service *)

Module JS.

(** *** Integer conversions and bitwise operators

    A Number holding an integer is a [Z]; the 32-bit operators first wrap
    their operands (ToInt32, ToUint32) and shift counts are taken modulo
    32, as ECMA-262 prescribes. *)

Definition ToUint32 (z : Z) : Z := z mod 2 ^ 32.

Definition ToInt32 (z : Z) : Z :=
  let u := z mod 2 ^ 32 in
  if 2 ^ 31 <=? u then u - 2 ^ 32 else u.

Definition ToUint16 (z : Z) : Z := z mod 2 ^ 16.

Definition ToUint8 (z : Z) : Z := z mod 2 ^ 8.

(** [a & b] *)
Definition band (a b : Z) : Z := Z.land (ToInt32 a) (ToInt32 b).

(** [a | b] *)
Definition bor (a b : Z) : Z := Z.lor (ToInt32 a) (ToInt32 b).

(** [a << n] *)
Definition shl (a n : Z) : Z :=
  ToInt32 (Z.shiftl (ToInt32 a) (ToUint32 n mod 32)).

(** [a >> n] *)
Definition sar (a n : Z) : Z := Z.shiftr (ToInt32 a) (ToUint32 n mod 32).

(** [a >>> n] *)
Definition shr (a n : Z) : Z := Z.shiftr (ToUint32 a) (ToUint32 n mod 32).

(** *** Exceptions

    The only exception the service can raise is the [RangeError] of a
    [DataView] access outside its buffer. *)

Inductive exn := RangeError.

Inductive result (A : Type) :=
| Ok (a : A)
| Throw (e : exn).
Arguments Ok {A} a.
Arguments Throw {A} e.

Definition bind {A B : Type} (r : result A) (k : A -> result B) : result B :=
  match r with
  | Ok a => k a
  | Throw e => Throw e
  end.

Notation "x <- r ;; k" := (bind r (fun x => k))
  (at level 61, r at next level, right associativity).

(** *** Strings *)

Local Open Scope string_scope.

(** The digit of [Number.prototype.toString(radix)] for a value below 36. *)
Definition digit_char (d : Z) : ascii :=
  if (d <? 10)%Z then ascii_of_nat (48 + Z.to_nat d)
  else ascii_of_nat (87 + Z.to_nat d).

Fixpoint digits_acc (fuel : nat) (radix n : Z) (acc : string) : string :=
  match fuel with
  | O => acc
  | S fuel' =>
      let acc' := String (digit_char (n mod radix)) acc in
      if (n / radix =? 0)%Z then acc'
      else digits_acc fuel' radix (n / radix) acc'
  end.

(** [n.toString(radix)] of an integer [n]: each division by a radix of at
    least two removes a bit, so the fuel suffices. *)
Definition toStringRadix (radix n : Z) : string :=
  let digits m := digits_acc (S (Z.to_nat (Z.log2 m))) radix m "" in
  if (n <? 0)%Z then "-" ++ digits (- n)%Z else digits n.

Definition upper_char (c : ascii) : ascii :=
  let n := nat_of_ascii c in
  if ((97 <=? n) && (n <=? 122))%nat then ascii_of_nat (n - 32) else c.

Fixpoint toUpperCase (s : string) : string :=
  match s with
  | EmptyString => EmptyString
  | String c s' => String (upper_char c) (toUpperCase s')
  end.

Fixpoint repeat_string (n : nat) (fill : string) : string :=
  match n with
  | O => ""
  | S n' => fill ++ repeat_string n' fill
  end.

(** [s.padStart(len, fill)] for a one-character [fill]. *)
Definition padStart (len : nat) (fill : string) (s : string) : string :=
  repeat_string (len - String.length s) fill ++ s.

(** [Array.prototype.join]: an element that is [undefined] (here [None])
    is rendered as the empty string. *)
Fixpoint join (sep : string) (l : list (option string)) : string :=
  match l with
  | [] => ""
  | [x] => match x with Some s => s | None => "" end
  | x :: rest =>
      match x with Some s => s | None => "" end ++ sep ++ join sep rest
  end.

(** Truthiness of a value that is a string or [undefined]. *)
Definition truthy (v : option string) : bool :=
  match v with
  | Some s => negb (String.eqb s "")
  | None => false
  end.

Close Scope string_scope.

(** *** Numbers

    A Number that need not be an integer is an IEEE-754 binary64 value,
    in the representation of the Standard Library's [SpecFloat]
    (precision 53, [emax] 1024). *)

Definition number := spec_float.

(** The Number of an integer (exact below [2 ^ 53]). *)
Definition Z2num (z : Z) : number := binary_normalize 53 1024 z 0 false.

(** The integral part of a finite Number; ToInt32 and its siblings send
    NaN and the infinities to zero. *)
Definition truncate (x : number) : Z :=
  match x with
  | S754_finite s m e =>
      let mag := if 0 <=? e then Z.pos m * 2 ^ e else Z.pos m / 2 ^ (- e) in
      if s then - mag else mag
  | _ => 0
  end.

(** *** binary32, the format of [getFloat32] and [setFloat32] *)

(** Conversion of a Number to binary32, round to nearest, ties to even. *)
Definition toFloat32 (x : number) : spec_float :=
  match x with
  | S754_finite s m e => binary_round 24 128 s m e
  | _ => x
  end.

(** A binary32 value is a Number as it is: the conversion is exact. *)
Definition ofFloat32 (f : spec_float) : number :=
  match f with
  | S754_finite s m e => binary_round 53 1024 s m e
  | _ => f
  end.

Definition sign_bit (s : bool) : Z := if s then 2 ^ 31 else 0.

(** The 32-bit pattern of a binary32 value; NaN is written as the quiet
    NaN [0x7FC00000]. *)
Definition float32_bits (f : spec_float) : Z :=
  match f with
  | S754_zero s => sign_bit s
  | S754_infinity s => sign_bit s + 0x7F800000
  | S754_nan => 0x7FC00000
  | S754_finite s m e =>
      if Z.pos m <? 2 ^ 23 then sign_bit s + Z.pos m
      else sign_bit s + (e + 149) * 2 ^ 23 + Z.pos m
  end.

(** The binary32 value of a 32-bit pattern. *)
Definition float32_of_bits (w : Z) : spec_float :=
  let s := Z.testbit w 31 in
  let ex := (w / 2 ^ 23) mod 2 ^ 8 in
  let mant := w mod 2 ^ 23 in
  if ex =? 0 then
    if mant =? 0 then S754_zero s else S754_finite s (Z.to_pos mant) (- 149)
  else if ex =? 255 then
    if mant =? 0 then S754_infinity s else S754_nan
  else S754_finite s (Z.to_pos (mant + 2 ^ 23)) (ex - 150).

(** *** [Number.prototype.toFixed(2)] and [parseFloat]

    The text produced by [toFixed(2)] is kept in structured form: the
    names of NaN and of the infinities, a decimal numeral with two
    fraction digits given by its sign and its count of hundredths
    ("-0.00" keeps its sign), or, from [10 ^ 21] on, the text of
    [Number.prototype.toString], which reads back as the number itself. *)

Inductive numeral :=
| NumNaN
| NumInfinity (neg : bool)
| NumFixed2 (neg : bool) (hundredths : Z)
| NumToString (x : number).

(** The integer [n] for which [n / 100 - m * 2 ^ e] is as close to zero
    as possible, the larger one of two. *)
Definition nearest_hundredths (m : positive) (e : Z) : Z :=
  if 0 <=? e then Z.pos m * 2 ^ e * 100
  else (2 * (Z.pos m * 100) + 2 ^ (- e)) / (2 * 2 ^ (- e)).

Definition toFixed2 (x : number) : numeral :=
  match x with
  | S754_nan => NumNaN
  | S754_infinity s => NumInfinity s
  | S754_zero _ => NumFixed2 false 0
  | S754_finite s m e =>
      if 10 ^ 21 <=? truncate (S754_finite false m e) then NumToString x
      else NumFixed2 s (nearest_hundredths m e)
  end.

(** [parseFloat] of such a text: the Number nearest to the numeral. *)
Definition parseFloat (t : numeral) : number :=
  match t with
  | NumNaN => S754_nan
  | NumInfinity s => S754_infinity s
  | NumFixed2 s n =>
      if n =? 0 then S754_zero s
      else SFdiv 53 1024 (Z2num (if s then - n else n)) (Z2num 100)
  | NumToString x => x
  end.

(** *** [DataView] over an [ArrayBuffer], big-endian accessors

    A buffer is the list of its bytes. Every accessor checks that the
    bytes it touches lie inside the buffer and raises [RangeError]
    otherwise. *)

Definition buffer := list Z.

Definition ArrayBuffer (n : nat) : buffer := repeat 0 n.

Definition read (view : buffer) (off n : nat) : result (list Z) :=
  if (off + n <=? List.length view)%nat then Ok (firstn n (skipn off view))
  else Throw RangeError.

Definition write (view : buffer) (off : nat) (bs : list Z) : result buffer :=
  if (off + List.length bs <=? List.length view)%nat
  then Ok (firstn off view ++ bs ++ skipn (off + List.length bs) view)
  else Throw RangeError.

(** The unsigned integer of a big-endian byte sequence. *)
Definition be_value (bs : list Z) : Z :=
  fold_left (fun acc b => acc * 256 + b) bs 0.

(** The [n] low bytes of [w], most significant first. *)
Fixpoint be_bytes (n : nat) (w : Z) : list Z :=
  match n with
  | O => []
  | S k => (w / 256 ^ Z.of_nat k) mod 256 :: be_bytes k w
  end.

Definition getUint8 (view : buffer) (off : nat) : result Z :=
  bs <- read view off 1 ;; Ok (be_value bs).

Definition getUint16 (view : buffer) (off : nat) : result Z :=
  bs <- read view off 2 ;; Ok (be_value bs).

Definition getUint32 (view : buffer) (off : nat) : result Z :=
  bs <- read view off 4 ;; Ok (be_value bs).

Definition getInt32 (view : buffer) (off : nat) : result Z :=
  bs <- read view off 4 ;; Ok (ToInt32 (be_value bs)).

Definition getFloat32 (view : buffer) (off : nat) : result number :=
  bs <- read view off 4 ;; Ok (ofFloat32 (float32_of_bits (be_value bs))).

Definition setUint8 (view : buffer) (off : nat) (v : Z) : result buffer :=
  write view off (be_bytes 1 (ToUint8 v)).

Definition setUint16 (view : buffer) (off : nat) (v : Z) : result buffer :=
  write view off (be_bytes 2 (ToUint16 v)).

Definition setInt32 (view : buffer) (off : nat) (v : number) : result buffer :=
  write view off (be_bytes 4 (ToUint32 (ToInt32 (truncate v)))).

Definition setFloat32 (view : buffer) (off : nat) (v : number)
  : result buffer :=
  write view off (be_bytes 4 (float32_bits (toFloat32 v))).

(** *** [Uint8Array] over an [ArrayBuffer]

    A typed array is a window into a buffer: [length] elements from
    [byteOffset]. Its elements are the bytes of the window; its [buffer]
    is the whole buffer, which several arrays can share. *)

Module Uint8Array.

Record t := {
  buffer : list Z;
  byteOffset : nat;
  length : nat
}.

(** [Array.from(a)]; [a[i]] is the element at [i], undefined outside. *)
Definition elements (a : t) : list Z :=
  firstn (length a) (skipn (byteOffset a) (buffer a)).

(** [new Uint8Array(buffer)]: the array that spans the whole buffer. *)
Definition of_buffer (b : list Z) : t :=
  {| buffer := b; byteOffset := 0; length := List.length b |}.

(** [a.subarray(begin, end)] for indices that are not negative: a window
    into the same buffer, the indices clamped to the length of [a]. *)
Definition subarray (a : t) (begin end_ : nat) : t :=
  let b := Nat.min begin (length a) in
  let e := Nat.min end_ (length a) in
  {| buffer := buffer a;
     byteOffset := byteOffset a + b;
     length := e - b |}.

End Uint8Array.

(** *** Strings given by the user

    A string that the user types or pastes is the list of its UTF-16 code
    units; the strings the program prints are ASCII and are embedded by
    [text_of_string]. *)

Definition text := list N.

Definition text_of_string (s : string) : text :=
  map N_of_ascii (list_ascii_of_string s).

(** The line terminators: LF, CR, LS and PS. *)
Definition is_line_terminator (c : N) : bool :=
  existsb (N.eqb c) [0x0A; 0x0D; 0x2028; 0x2029]%N.

(** The class [\s] of a regular expression, which is also the white space
    that [parseInt] skips: TAB, VT, FF, the space separators, the byte
    order mark, and the line terminators. *)
Definition is_space (c : N) : bool :=
  existsb (N.eqb c)
    [0x09; 0x0B; 0x0C; 0x20; 0xA0; 0x1680; 0x202F; 0x205F; 0x3000; 0xFEFF]%N
  || ((0x2000 <=? c) && (c <=? 0x200A))%N
  || is_line_terminator c.

(** [s.replace(/\s+/g, '')] *)
Definition remove_spaces (s : text) : text :=
  filter (fun c => negb (is_space c)) s.

(** [s.replace(/0x/g, '')]: one pass from the left; what the removals
    bring together is not looked at again. *)
Fixpoint remove_0x (s : text) : text :=
  match s with
  | [] => []
  | c :: rest =>
      match rest with
      | c' :: rest' =>
          if ((c =? 0x30) && (c' =? 0x78))%N then remove_0x rest'
          else c :: remove_0x rest
      | [] => [c]
      end
  end.

(** [s.substring(start, end)] for [start <= end]. *)
Definition substring (s : text) (start end_ : nat) : text :=
  firstn (end_ - start) (skipn start s).

(** The value of a digit or letter as a digit of a radix up to 36. *)
Definition digit_value (c : N) : option Z :=
  if ((0x30 <=? c) && (c <=? 0x39))%N then Some (Z.of_N c - 0x30)
  else if ((0x61 <=? c) && (c <=? 0x7A))%N then Some (Z.of_N c - 0x61 + 10)
  else if ((0x41 <=? c) && (c <=? 0x5A))%N then Some (Z.of_N c - 0x41 + 10)
  else None.

(** The integer of the longest prefix of digits of the radix, after the
    digits already read; [None] when there is no digit at all. *)
Fixpoint parse_digits (radix : Z) (s : text) (acc : option Z) : option Z :=
  match s with
  | [] => acc
  | c :: rest =>
      match digit_value c with
      | Some d =>
          if d <? radix
          then parse_digits radix rest
                 (Some (match acc with Some a => a | None => 0 end * radix + d))
          else acc
      | None => acc
      end
  end.

Fixpoint skip_spaces (s : text) : text :=
  match s with
  | c :: rest => if is_space c then skip_spaces rest else s
  | [] => []
  end.

(** [parseInt(s, radix)] for a radix from 2 to 36: leading white space, a
    sign, for radix 16 a prefix [0x] or [0X], then the digits. The result
    is an integer, or NaN ([None]); it is exact, as the Number is while
    the integer is below [2 ^ 53]. *)
Definition parseInt (s : text) (radix : Z) : option Z :=
  let s := skip_spaces s in
  let '(sign, s) :=
    match s with
    | c :: rest =>
        if (c =? 0x2D)%N then (- 1, rest)
        else if (c =? 0x2B)%N then (1, rest)
        else (1, s)
    | [] => (1, s)
    end in
  let s :=
    if radix =? 16 then
      match s with
      | c :: c' :: rest =>
          if ((c =? 0x30) && ((c' =? 0x78) || (c' =? 0x58)))%N then rest else s
      | _ => s
      end
    else s in
  match parse_digits radix s None with
  | Some n => Some (sign * n)
  | None => None
  end.

(** [s.match(/.{1,2}/g)]: from the left, two characters at a time, one
    when a single one is left; a line terminator is matched by no [.] and
    is skipped. The list is empty where [match] returns [null]. *)
Fixpoint match_one_or_two (s : text) : list text :=
  match s with
  | [] => []
  | c :: rest =>
      if is_line_terminator c then match_one_or_two rest
      else
        match rest with
        | c' :: rest' =>
            if is_line_terminator c' then [c] :: match_one_or_two rest
            else [c; c'] :: match_one_or_two rest'
        | [] => [[c]]
        end
  end.

(** [new Uint8Array(numbers)]: an array over a buffer of its own, every
    element converted by ToUint8, which sends NaN to zero. *)
Definition Uint8Array_from (numbers : list (option Z)) : Uint8Array.t :=
  Uint8Array.of_buffer
    (map (fun n => match n with Some z => ToUint8 z | None => 0 end) numbers).

(** [isNaN(x)] *)
Definition isNaN (x : number) : bool :=
  match x with
  | S754_nan => true
  | _ => false
  end.

End JS.

(** ** [types.ts] *)

Module Types.
Import JS.
Local Open Scope string_scope.

Inductive RegisterType :=
| READ_ONLY_FLOAT
| READ_ONLY_INT
| WRITE_ONLY_FLOAT
| WRITE_ONLY_INT.

Definition RegisterType_eqb (a b : RegisterType) : bool :=
  match a, b with
  | READ_ONLY_FLOAT, READ_ONLY_FLOAT
  | READ_ONLY_INT, READ_ONLY_INT
  | WRITE_ONLY_FLOAT, WRITE_ONLY_FLOAT
  | WRITE_ONLY_INT, WRITE_ONLY_INT => true
  | _, _ => false
  end.

(** A [Record<number, V>] written as an object literal: its entries in
    order; no key occurs twice in the tables below. *)
Definition Record_number (V : Type) := list (Z * V).

Fixpoint lookup {V : Type} (r : Record_number V) (k : Z) : option V :=
  match r with
  | [] => None
  | (k', v) :: rest => if (k' =? k)%Z then Some v else lookup rest k
  end.

Record RegisterDefinition := {
  address : Z;
  name : string;
  type : RegisterType;
  unit : option string;
  description : string;
  options : option (Record_number string)
}.

(** A decoded value is a Number or a string. *)
Inductive string_or_number :=
| Num (x : number)
| Str (s : string).

Record DecodedFrame := {
  mxrId : Z;
  moduleType : Z;
  dstAddr : Z;
  srcAddr : Z;
  register : Z;
  rawPayloadHex : string;
  decodedValue : string_or_number;
  isError : bool;
  errorDescription : string
}.

Definition MXR_ID_DEFAULT : Z := 0x15.
Definition MODULE_TYPE_FIXED : Z := 0x81.
Definition MONITOR_ADDR : Z := 0xA0.
Definition BROADCAST_ADDR : Z := 0xFF.

Definition REGISTERS : Record_number RegisterDefinition := [
  (0x0001, {| address := 0x0001; name := "Output Voltage";
              type := READ_ONLY_FLOAT; unit := Some "V";
              description := "Current output voltage"; options := None |});
  (0x0002, {| address := 0x0002; name := "Output Current";
              type := READ_ONLY_FLOAT; unit := Some "A";
              description := "Current output current"; options := None |});
  (0x0004, {| address := 0x0004; name := "Input Voltage";
              type := READ_ONLY_FLOAT; unit := Some "V";
              description := "AC Input voltage"; options := None |});
  (0x0006, {| address := 0x0006; name := "Inlet Temp";
              type := READ_ONLY_FLOAT; unit := Some "Â°C";
              description := "Air inlet temperature"; options := None |});
  (0x0100, {| address := 0x0100; name := "Alarm Info";
              type := READ_ONLY_INT; unit := None;
              description := "Bitmap of alarms (See Table 2.1)";
              options := None |});
  (0x0101, {| address := 0x0101; name := "Status";
              type := READ_ONLY_INT; unit := None;
              description := "Operating status";
              options := Some [
                (0x0000, "Power-on default");
                (0x0001, "Initialization");
                (0x0002, "Fault");
                (0x0003, "Standby");
                (0x0004, "Start Delay / Relay Action");
                (0x0006, "Soft Start");
                (0x0007, "Running") ]%Z |});
  (0x0110, {| address := 0x0110; name := "ON/OFF Status";
              type := READ_ONLY_INT; unit := None;
              description := "0=Start, 1=Stop"; options := None |});
  (0x0400, {| address := 0x0400; name := "Control Command";
              type := WRITE_ONLY_INT; unit := None;
              description := "Set Startup/Shutdown";
              options := Some [
                (0, "Startup (0x00)");
                (1, "Shutdown (0x01)") ]%Z |});
  (0x0410, {| address := 0x0410; name := "Set Output Voltage";
              type := WRITE_ONLY_FLOAT; unit := Some "V";
              description := "Target voltage setting"; options := None |});
  (0x0411, {| address := 0x0411; name := "Set Output Current";
              type := WRITE_ONLY_FLOAT; unit := Some "A";
              description := "Target current limit"; options := None |});
  (0x0301, {| address := 0x0301; name := "Troubleshooting";
              type := WRITE_ONLY_INT; unit := None;
              description := "Clear Faults: 1=Enable"; options := None |})
]%Z.

Definition ALARM_BITS : list string := [
  "Input Overvoltage"; "Input Undervoltage"; "Output Overvoltage";
  "Output Undervoltage";
  "Input Ext Overvoltage"; "Input Ext Undervoltage";
  "Output Ext Overvoltage"; "Output Ext Undervoltage";
  "Inlet Temp Low"; "Reserved"; "Internal OverTemp 1"; "Internal OverTemp 2";
  "Inlet OverTemp"; "Ref Voltage 1 Abnormal"; "Ref Voltage 2 Abnormal";
  "Fan Failure";
  "Input Fast Overvolt"; "Output Fast Overvolt"; "Overcurrent Protection";
  "Emergency Stop";
  "CAN Comm Failure"; "CAN Bus Fault"; "Reserved"; "Reserved";
  "Overvolt Disconnect"; "Reserved"; "Output Short Circuit"; "Reserved";
  "Reserved"; "Reserved"; "Module Lockup"; "Reserved"
].

Record CanFrame := {
  id : Z;
  data : JS.Uint8Array.t
}.

End Types.

(** ** [services/canProtocolService.ts] *)

Module CanProtocolService.
Import JS Types.

(** The object literal returned by [parseFrameId]. *)
Record FrameIdParts := mkFrameIdParts {
  mxrId : Z;
  moduleType : Z;
  dstAddr : Z;
  srcAddr : Z
}.

(** [buildFrameId(dstAddr, srcAddr = MONITOR_ADDR)]: an omitted second
    argument is [None]. *)
Definition buildFrameId (dstAddr : Z) (srcAddr : option Z) : Z :=
  let srcAddr := match srcAddr with Some s => s | None => MONITOR_ADDR end in
  let id := 0 in
  let id := bor id (shl (band MXR_ID_DEFAULT 0x1F) 24) in
  let id := bor id (shl (band MODULE_TYPE_FIXED 0xFF) 16) in
  let id := bor id (shl (band dstAddr 0xFF) 8) in
  let id := bor id (band srcAddr 0xFF) in
  shr id 0.

Definition parseFrameId (id : Z) : FrameIdParts :=
  {| mxrId := band (sar id 24) 0x1F;
     moduleType := band (sar id 16) 0xFF;
     dstAddr := band (sar id 8) 0xFF;
     srcAddr := band id 0xFF |}.

(** [buildDataPayload(registerAddr, value, isFloat)]: the register
    address is an integer, the value any Number. The array returned spans
    the buffer of eight bytes that the [DataView] has written. *)
Definition buildDataPayload (registerAddr : Z) (value : number)
    (isFloat : bool) : result Uint8Array.t :=
  let view := ArrayBuffer 8 in
  view <- setUint8 view 0 0x00 ;;
  view <- setUint8 view 1 0x00 ;;
  view <- setUint16 view 2 registerAddr ;;
  view <- (if isFloat then setFloat32 view 4 value
           else setInt32 view 4 value) ;;
  Ok (Uint8Array.of_buffer view).

(** The loop over the 32 alarm bits: [alarms.push(ALARM_BITS[i])] for
    every [i] with [(val >> i) & 1] truthy. *)
Definition collect_alarms (val : Z) : list (option string) :=
  fold_left
    (fun alarms i =>
       if negb (band (sar val (Z.of_nat i)) 1 =? 0)
       then alarms ++ [nth_error ALARM_BITS i]
       else alarms)
    (seq 0 32) [].

(** The hex transcript of the payload bytes. *)
Definition payloadHex (dataBytes : list Z) : string :=
  join " "%string
    (map (fun b =>
            Some (toUpperCase (padStart 2 "0"%string (toStringRadix 16 b))))
       dataBytes).

Section Decode.

(** The register table [decodeFrame] consults; the service reads the
    constant [REGISTERS]. *)
Variable registers : Record_number RegisterDefinition.

(** [decodeFrame(id, dataBytes)]. The [DataView] is made of
    [dataBytes.buffer] and so reads the whole buffer from its first byte,
    wherever the window of [dataBytes] lies in it; [rawPayloadHex] is
    made of the elements of [dataBytes]. [decodedValue] starts as 0 and
    is assigned on every path that reaches the [return]; [isError] and
    [errorDescription] start as [false] and the empty string. *)
Definition decodeFrameWith (id : Z) (dataBytes : Uint8Array.t)
  : result DecodedFrame :=
  let view := Uint8Array.buffer dataBytes in
  let idParts := parseFrameId id in
  returnCode <- getUint8 view 0 ;;
  registerAddr <- getUint16 view 2 ;;
  let isResponse := existsb (Z.eqb returnCode) [0xF0; 0xF1; 0xF2] in
  let '(isError, errorDescription) :=
    if isResponse then
      if returnCode =? 0xF2
      then (true, "F2: Failure, discard frame"%string)
      else if returnCode =? 0xF1
      then (false, "F1: Forced to default value"%string)
      else (false, ""%string)
    else (false, ""%string) in
  decodedValue <-
    match lookup registers registerAddr with
    | Some registerDef =>
        let isFloat :=
          RegisterType_eqb (type registerDef) READ_ONLY_FLOAT
          || RegisterType_eqb (type registerDef) WRITE_ONLY_FLOAT in
        if isFloat then
          val <- getFloat32 view 4 ;;
          Ok (Num (parseFloat (toFixed2 val)))
        else
          val <- getInt32 view 4 ;;
          let option :=
            match options registerDef with
            | Some opts => lookup opts val
            | None => None
            end in
          if truthy option then
            Ok (Str (toStringRadix 10 val ++ " ("
                     ++ match option with Some l => l | None => "" end
                     ++ ")")%string)
          else if address registerDef =? 0x0100 then
            let alarms := collect_alarms val in
            Ok (Str (if (0 <? List.length alarms)%nat
                     then join ", " alarms else "No Alarms")%string)
          else Ok (Num (Z2num val))
    | None =>
        w <- getUint32 view 4 ;;
        Ok (Str ("Unknown Reg: 0x"
                 ++ toUpperCase (toStringRadix 16 w))%string)
    end ;;
  Ok {| Types.mxrId := mxrId idParts;
        Types.moduleType := moduleType idParts;
        Types.dstAddr := dstAddr idParts;
        Types.srcAddr := srcAddr idParts;
        register := registerAddr;
        rawPayloadHex := payloadHex (Uint8Array.elements dataBytes);
        decodedValue := decodedValue;
        isError := isError;
        errorDescription := errorDescription |}.

End Decode.

Definition decodeFrame (id : Z) (dataBytes : Uint8Array.t)
  : result DecodedFrame :=
  decodeFrameWith REGISTERS id dataBytes.

(** [frameToDisplayString(frame)]; the payload is rendered by the same
    expression as [rawPayloadHex]. *)
Definition frameToDisplayString (frame : CanFrame) : string :=
  let idHex :=
    padStart 8 "0"%string (toUpperCase (toStringRadix 16 (id frame))) in
  let dataHex := payloadHex (Uint8Array.elements (data frame)) in
  ("ID: 0x" ++ idHex ++ "  DATA: " ++ dataHex)%string.

End CanProtocolService.

(** ** [App.tsx] *)

Module App.
Import JS Types CanProtocolService.

(** What the [catch] of [handleDecode] can receive: the [Error] thrown on
    a wrong length, the [TypeError] of calling [map] on [null], or an
    exception of [decodeFrame]. *)
Inductive caught :=
| CaughtError (message : string)
| CaughtTypeError
| CaughtFromDecode (e : exn).

(** The two ways [handleDecode] ends: [setDecodedResult(decoded)], or
    [setDecodedResult(null)] followed by the alert of the error caught. *)
Inductive handled :=
| SetDecodedResult (decoded : DecodedFrame)
| AlertDecodeError (e : caught).

(** [handleDecode], as a function of the state [rawHexInput]. A NaN
    identifier reaches [decodeFrame] only through bitwise operators, which
    read it as zero. *)
Definition handleDecode (rawHexInput : text) : handled :=
  let clean := remove_0x (remove_spaces rawHexInput) in
  let idHex := substring clean 0 8 in
  let dataHex := substring clean 8 24 in
  if negb (List.length idHex =? 8)%nat || negb (List.length dataHex =? 16)%nat
  then AlertDecodeError
         (CaughtError "Invalid Length. Format: ID(8 chars) DATA(16 chars)")
  else
    let id := parseInt idHex 16 in
    match match_one_or_two dataHex with
    | [] => AlertDecodeError CaughtTypeError
    | chunks =>
        let dataBytes :=
          Uint8Array_from (map (fun byte => parseInt byte 16) chunks) in
        match decodeFrame (match id with Some z => z | None => 0 end)
                dataBytes with
        | Ok decoded => SetDecodedResult decoded
        | Throw e => AlertDecodeError (CaughtFromDecode e)
        end
    end.

Section Generator.

(** The Numbers that [parseFloat(inputValue)] and [parseInt(inputValue,
    10)] read from the value field. *)
Variable parseFloat_input : text -> number.
Variable parseInt_input : text -> number.

(** The effect that regenerates the frame, as a function of the state
    [targetAddr], [selectedRegAddr] and [inputValue]: the frame passed to
    [setGeneratedFrame], or [None] when the effect returns early and
    leaves the state as it is. *)
Definition generateFrame (targetAddr : Z) (selectedRegAddr inputValue : text)
  : result (option CanFrame) :=
  match parseInt selectedRegAddr 16 with
  | None => Ok None
  | Some regAddrInt =>
      match lookup REGISTERS regAddrInt with
      | None => Ok None
      | Some register =>
          let isFloat :=
            RegisterType_eqb (type register) WRITE_ONLY_FLOAT
            || RegisterType_eqb (type register) READ_ONLY_FLOAT in
          let numValue :=
            if isFloat then
              let numValue := parseFloat_input inputValue in
              if isNaN numValue then Z2num 0 else numValue
            else
              let numValue := parseInt_input inputValue in
              if isNaN numValue then Z2num 0 else numValue in
          let isReadRequest :=
            RegisterType_eqb (type register) READ_ONLY_FLOAT
            || RegisterType_eqb (type register) READ_ONLY_INT in
          let payloadValue := if isReadRequest then Z2num 0 else numValue in
          let id := buildFrameId targetAddr None in
          data <- buildDataPayload regAddrInt payloadValue
                    (isFloat && negb isReadRequest) ;;
          Ok (Some {| id := id; data := data |})
      end
  end.

End Generator.

(** The keys of an object that are array indices are enumerated in
    ascending order. *)
Fixpoint insert_entry {V : Type} (k : Z) (v : V) (l : Record_number V)
  : Record_number V :=
  match l with
  | [] => [(k, v)]
  | (k', v') :: rest =>
      if k <=? k' then (k, v) :: l else (k', v') :: insert_entry k v rest
  end.

(** [Object.values(r)] *)
Definition Object_values {V : Type} (r : Record_number V) : list V :=
  map snd (fold_right (fun e acc => insert_entry (fst e) (snd e) acc) [] r).

(** An entry of the register dropdown. *)
Module RegisterOption.
Record t := {
  label : string;
  value : string;
  type : RegisterType
}.
End RegisterOption.

Definition registerOptions : list RegisterOption.t :=
  map (fun reg =>
         {| RegisterOption.label :=
              ("[0x"
               ++ toUpperCase
                    (padStart 4 "0" (toStringRadix 16 (address reg)))
               ++ "] " ++ name reg)%string;
            RegisterOption.value :=
              ("0x" ++ padStart 4 "0" (toStringRadix 16 (address reg)))%string;
            RegisterOption.type := Types.type reg |})
      (Object_values REGISTERS).

End App.

(** ** [components/ByteGrid.tsx] *)

Module ByteGrid.
Import JS.

(** The texts of the eight cells: [data[i]], or 0 where it is undefined,
    in two upper-case hex digits. *)
Definition cells (data : Uint8Array.t) : list string :=
  map (fun i =>
         let byteVal :=
           match nth_error (Uint8Array.elements data) i with
           | Some b => b
           | None => 0
           end in
         padStart 2 "0"%string (toUpperCase (toStringRadix 16 byteVal)))
      (seq 0 8).

End ByteGrid.

Import JS Types CanProtocolService.

(** ** Vocabulary of the specification *)

Section Vocabulary.
Local Open Scope string_scope.

(** The error flag and description as functions of the return code. *)
Definition error_flag (returnCode : Z) : bool := (returnCode =? 0xF2)%Z.

Definition error_text (returnCode : Z) : string :=
  if (returnCode =? 0xF2)%Z then "F2: Failure, discard frame"
  else if (returnCode =? 0xF1)%Z then "F1: Forced to default value"
  else "".

(** The bit positions 0 to 31 that are set in a bitmap, in ascending
    order. *)
Definition set_bits (w : Z) : list nat :=
  filter (fun i => Z.testbit w (Z.of_nat i)) (seq 0 32).

(** The alarm text of a bitmap: the labels of its set bits joined with a
    comma and a space, or "No Alarms". *)
Definition alarm_text (w : Z) : string :=
  match set_bits w with
  | [] => "No Alarms"
  | bits => String.concat ", " (map (fun i => nth i ALARM_BITS "") bits)
  end.

(** The float kinds of the register table. *)
Definition is_float_kind (t : RegisterType) : bool :=
  match t with
  | READ_ONLY_FLOAT | WRITE_ONLY_FLOAT => true
  | READ_ONLY_INT | WRITE_ONLY_INT => false
  end.

(** The option label a register defines for an integer, if any. *)
Definition option_label (def : RegisterDefinition) (val : Z)
  : option string :=
  match options def with
  | Some opts => lookup opts val
  | None => None
  end.

(** The text of an integer with its option label. *)
Definition labelled (val : Z) (label : string) : string :=
  toStringRadix 10 val ++ " (" ++ label ++ ")".

(** What [decodeFrame] makes of bytes 4 to 7, given as the unsigned
    32-bit word [w] they spell, for the register found at bytes 2 to 3. *)
Definition decoded_of_word (registers : Record_number RegisterDefinition)
    (registerAddr w : Z) : string_or_number :=
  match lookup registers registerAddr with
  | Some def =>
      if is_float_kind (type def)
      then Num (parseFloat (toFixed2 (ofFloat32 (float32_of_bits w))))
      else
        let val := ToInt32 w in
        if truthy (option_label def val)
        then Str (labelled val
                    match option_label def val with
                    | Some l => l
                    | None => ""
                    end)
        else if (address def =? 0x0100)%Z then
          Str (if (0 <? List.length (collect_alarms val))%nat
               then join ", " (collect_alarms val) else "No Alarms")
        else Num (Z2num val)
  | None => Str ("Unknown Reg: 0x" ++ toUpperCase (toStringRadix 16 w))
  end.

(** The value of a hexadecimal numeral, read digit by digit. *)
Definition hex_digit_value (c : ascii) : Z :=
  let n := Z.of_nat (nat_of_ascii c) in
  if ((48 <=? n) && (n <=? 57))%Z then (n - 48)%Z
  else if ((65 <=? n) && (n <=? 70))%Z then (n - 55)%Z
  else if ((97 <=? n) && (n <=? 102))%Z then (n - 87)%Z
  else 0%Z.

Fixpoint hex_value_from (acc : Z) (s : string) : Z :=
  match s with
  | EmptyString => acc
  | String c s' => hex_value_from (acc * 16 + hex_digit_value c)%Z s'
  end.

Definition hex_value (s : string) : Z := hex_value_from 0 s.

(** The 32-bit word [buildDataPayload] stores in bytes 4 to 7: the
    binary32 pattern of the value, or the two's complement of its signed
    32-bit integer. *)
Definition value_word (value : number) (isFloat : bool) : Z :=
  if isFloat then float32_bits (toFloat32 value)
  else ToUint32 (ToInt32 (truncate value)).

(** What a payload built for a register of the table decodes to: the
    value at binary32 precision rounded to two decimals for a float
    register; for an integer register the signed 32-bit integer [val] of
    the value, shown with its option label when the register defines one,
    as alarm text for the alarm register, and as the number otherwise. *)
Definition roundtrip_value (def : RegisterDefinition) (value : number)
  : string_or_number :=
  if is_float_kind (type def)
  then Num (parseFloat (toFixed2 (ofFloat32 (toFloat32 value))))
  else
    let val := ToInt32 (truncate value) in
    match option_label def val with
    | Some label => Str (labelled val label)
    | None =>
        if (address def =? 0x0100)%Z then Str (alarm_text val)
        else Num (Z2num val)
    end.

(** A frame with another hex transcript. *)
Definition with_rawPayloadHex (f : DecodedFrame) (hex : string)
  : DecodedFrame :=
  {| Types.mxrId := Types.mxrId f;
     Types.moduleType := Types.moduleType f;
     Types.dstAddr := Types.dstAddr f;
     Types.srcAddr := Types.srcAddr f;
     register := register f;
     rawPayloadHex := hex;
     decodedValue := decodedValue f;
     isError := isError f;
     errorDescription := errorDescription f |}.

(** Whether a call raised an exception. *)
Definition throws {A : Type} (r : result A) : bool :=
  match r with
  | Ok _ => false
  | Throw _ => true
  end.

End Vocabulary.

(** ** Vocabulary of the further properties *)

(** The digits of [n] in a radix, most significant first. *)
Fixpoint digits_list (fuel : nat) (radix n : Z) : list Z :=
  match fuel with
  | O => []
  | S fuel' =>
      if n / radix =? 0 then [n mod radix]
      else digits_list fuel' radix (n / radix) ++ [n mod radix]
  end.

(** The text of a list of digits. *)
Fixpoint digits_string (ds : list Z) : string :=
  match ds with
  | [] => EmptyString
  | d :: rest => String (digit_char d) (digits_string rest)
  end.

(** The integer a list of digits denotes. *)
Definition digits_value (radix : Z) (ds : list Z) : Z :=
  fold_left (fun acc d => acc * radix + d) ds 0.

(** The code unit of a digit as the program prints it in upper case, and
    in lower case. *)
Definition upper_code (d : Z) : N := N_of_ascii (upper_char (digit_char d)).
Definition lower_code (d : Z) : N := N_of_ascii (digit_char d).

(** What the parsers of [handleDecode] see in a hex digit. *)
Definition plain_digit (c : N) (d : Z) : Prop :=
  digit_value c = Some d
  /\ is_space c = false
  /\ is_line_terminator c = false
  /\ (c =? 0x78)%N = false
  /\ (c =? 0x58)%N = false
  /\ (c =? 0x2D)%N = false
  /\ (c =? 0x2B)%N = false.

(** The text [handleDecode] cuts the identifier and the payload from. *)
Definition cleaned (rawHexInput : text) : text :=
  remove_0x (remove_spaces rawHexInput).

(** The two hex digits of a byte. *)
Definition byte_digits (b : Z) : list Z := [b / 16; b mod 16].

(** A frame as the generator panel shows it: the identifier in eight
    upper-case hex digits, a space, the payload bytes in hex. *)
Definition transcript (id : Z) (dataBytes : list Z) : string :=
  (padStart 8 "0" (toUpperCase (toStringRadix 16 id)) ++ " "
   ++ payloadHex dataBytes)%string.

(** The read-only kinds of the register table. *)
Definition is_read_kind (t : RegisterType) : bool :=
  match t with
  | READ_ONLY_FLOAT | READ_ONLY_INT => true
  | WRITE_ONLY_FLOAT | WRITE_ONLY_INT => false
  end.

(** The value the generator sends for a register: zero for a read
    request, else what the parser of the register's kind read from the
    value field, with zero for NaN. *)
Definition request_value (parseFloat_input parseInt_input : text -> number)
    (def : RegisterDefinition) (inputValue : text) : number :=
  if is_read_kind (type def) then Z2num 0
  else
    let parsed :=
      if is_float_kind (type def) then parseFloat_input inputValue
      else parseInt_input inputValue in
    if isNaN parsed then Z2num 0 else parsed.

(** ** Properties *)

(** *** Arithmetic of the 32-bit operators *)

Section BitLemmas.

Lemma ToInt32_small (z : Z) : - 2 ^ 31 <= z < 2 ^ 31 -> ToInt32 z = z.
Proof.
  unfold ToInt32. change (2 ^ 32) with 4294967296.
  change (2 ^ 31) with 2147483648. intros Hz.
  destruct (Z.leb_spec 2147483648 (z mod 4294967296));
    Z.div_mod_to_equations; lia.
Qed.

Lemma ToInt32_range (z : Z) : - 2 ^ 31 <= ToInt32 z < 2 ^ 31.
Proof.
  unfold ToInt32. change (2 ^ 32) with 4294967296.
  change (2 ^ 31) with 2147483648.
  destruct (Z.leb_spec 2147483648 (z mod 4294967296));
    Z.div_mod_to_equations; lia.
Qed.

Lemma ToInt32_mod_256 (z : Z) : ToInt32 z mod 256 = z mod 256.
Proof.
  unfold ToInt32. change (2 ^ 32) with 4294967296.
  change (2 ^ 31) with 2147483648.
  destruct (Z.leb_spec 2147483648 (z mod 4294967296));
    Z.div_mod_to_equations; lia.
Qed.

Lemma ToUint32_small (z : Z) : 0 <= z < 2 ^ 32 -> ToUint32 z = z.
Proof. intros Hz. unfold ToUint32. now apply Z.mod_small. Qed.

Lemma band_0xFF (a : Z) : band a 0xFF = a mod 256.
Proof.
  unfold band. rewrite (ToInt32_small 0xFF) by (cbv; split; congruence).
  change 0xFF with (Z.ones 8). rewrite Z.land_ones by lia.
  apply ToInt32_mod_256.
Qed.

Lemma band_0x1F (a : Z) : - 2 ^ 31 <= a < 2 ^ 31 -> band a 0x1F = a mod 32.
Proof.
  intros Ha. unfold band.
  rewrite (ToInt32_small 0x1F) by (cbv; split; congruence).
  rewrite ToInt32_small by assumption.
  change 0x1F with (Z.ones 5). now rewrite Z.land_ones by lia.
Qed.

(** Or-ing a value into bit positions that are still clear adds it. *)
Lemma lor_high_low (h l k : Z) :
  0 <= k -> 0 <= l < 2 ^ k -> h mod 2 ^ k = 0 -> Z.lor h l = h + l.
Proof.
  intros Hk Hl Hh.
  assert (Hp : 0 < 2 ^ k) by (apply Z.pow_pos_nonneg; lia).
  apply Z.bits_inj'. intros n Hn. rewrite Z.lor_spec.
  destruct (Z.lt_ge_cases n k) as [Hlt | Hge].
  - rewrite <- (Z.mod_pow2_bits_low h k n), Hh, Z.bits_0 by lia. simpl.
    rewrite <- (Z.mod_pow2_bits_low (h + l) k n) by lia.
    f_equal. symmetry.
    rewrite <- Z.add_mod_idemp_l, Hh by lia. simpl. apply Z.mod_small; lia.
  - replace n with ((n - k) + k) by lia.
    rewrite <- !Z.div_pow2_bits by lia.
    rewrite (Z.div_small l) by lia. rewrite Z.bits_0, orb_false_r.
    f_equal. Z.div_mod_to_equations; nia.
Qed.

Lemma sar_small (a n : Z) :
  - 2 ^ 31 <= a < 2 ^ 31 -> 0 <= n < 32 -> sar a n = a / 2 ^ n.
Proof.
  intros Ha Hn. unfold sar, ToUint32.
  rewrite ToInt32_small by assumption.
  rewrite (Z.mod_small n) by (change (2 ^ 32) with 4294967296; lia).
  rewrite (Z.mod_small n) by lia. apply Z.shiftr_div_pow2. lia.
Qed.

End BitLemmas.

(** *** Identifier round trip *)

(** The identifier in closed form: the two constants and the two masked
    addresses, each in its own byte. *)
Lemma buildFrameId_closed (dst src : Z) :
  buildFrameId dst (Some src) = 0x15810000 + (dst mod 256) * 256 + src mod 256.
Proof.
  unfold buildFrameId. rewrite !band_0xFF.
  assert (Hd : 0 <= dst mod 256 < 256) by (apply Z.mod_pos_bound; lia).
  assert (Hs : 0 <= src mod 256 < 256) by (apply Z.mod_pos_bound; lia).
  set (d := dst mod 256) in *. set (s := src mod 256) in *.
  change (bor 0 (shl (band MXR_ID_DEFAULT 0x1F) 24)) with 0x15000000.
  change (MODULE_TYPE_FIXED mod 256) with 0x81.
  change (bor 0x15000000 (shl 0x81 16)) with 0x15810000.
  assert (Hshl : shl d 8 = d * 256).
  { unfold shl. change (ToUint32 8 mod 32) with 8.
    rewrite (ToInt32_small d) by (change (2 ^ 31) with 2147483648; lia).
    rewrite Z.shiftl_mul_pow2 by lia. change (2 ^ 8) with 256.
    apply ToInt32_small. change (2 ^ 31) with 2147483648. lia. }
  rewrite Hshl.
  assert (H1 : bor 0x15810000 (d * 256) = 0x15810000 + d * 256).
  { unfold bor.
    rewrite (ToInt32_small 0x15810000) by (cbv; split; congruence).
    rewrite ToInt32_small by (change (2 ^ 31) with 2147483648; lia).
    apply (lor_high_low _ _ 16); change (2 ^ 16) with 65536; [lia|lia|reflexivity]. }
  rewrite H1.
  assert (H2 : bor (0x15810000 + d * 256) s = 0x15810000 + d * 256 + s).
  { unfold bor.
    rewrite !ToInt32_small by (change (2 ^ 31) with 2147483648; lia).
    apply (lor_high_low _ _ 8); change (2 ^ 8) with 256; [lia|lia|].
    Z.div_mod_to_equations; lia. }
  rewrite H2. unfold shr. change (ToUint32 0 mod 32) with 0.
  rewrite Z.shiftr_0_r. apply ToUint32_small.
  change (2 ^ 32) with 4294967296. lia.
Qed.

Lemma parseFrameId_closed (d s : Z) :
  0 <= d < 256 -> 0 <= s < 256 ->
  parseFrameId (0x15810000 + d * 256 + s)
  = {| mxrId := 0x15; moduleType := 0x81; dstAddr := d; srcAddr := s |}.
Proof.
  intros Hd Hs. unfold parseFrameId.
  set (id := 0x15810000 + d * 256 + s).
  assert (Hid : - 2 ^ 31 <= id < 2 ^ 31)
    by (subst id; change (2 ^ 31) with 2147483648; lia).
  rewrite !sar_small by (assumption || lia).
  rewrite !band_0xFF.
  change (2 ^ 24) with 16777216. change (2 ^ 16) with 65536.
  change (2 ^ 8) with 256.
  rewrite band_0x1F
    by (change (2 ^ 31) with 2147483648; subst id; Z.div_mod_to_equations; lia).
  f_equal; subst id; Z.div_mod_to_equations; lia.
Qed.

(** C1. For all byte values [dst] and [src], parsing the identifier built
    from them gives back manufacturer id 0x15, module type 0x81, [dst] and
    [src]; an omitted source is the monitor address 0xA0, and
    [buildFrameId(1)] is 0x158101A0. *)
Theorem C1_frame_id_roundtrip (dst src : Z) :
  0 <= dst <= 255 -> 0 <= src <= 255 ->
  parseFrameId (buildFrameId dst (Some src))
    = {| mxrId := 0x15; moduleType := 0x81; dstAddr := dst; srcAddr := src |}
  /\ buildFrameId dst None = buildFrameId dst (Some 0xA0)
  /\ buildFrameId 1 None = 0x158101A0.
Proof.
  intros Hd Hs. split; [|split].
  - rewrite buildFrameId_closed.
    rewrite (Z.mod_small dst), (Z.mod_small src) by lia.
    apply parseFrameId_closed; lia.
  - unfold buildFrameId. reflexivity.
  - vm_compute. reflexivity.
Qed.

Lemma C1_frame_id_roundtrip_witness :
  parseFrameId (buildFrameId 0x02 (Some 0xA0))
    = {| mxrId := 0x15; moduleType := 0x81; dstAddr := 0x02; srcAddr := 0xA0 |}
  /\ buildFrameId 0x02 None = buildFrameId 0x02 (Some 0xA0)
  /\ buildFrameId 1 None = 0x158101A0.
Proof. apply (C1_frame_id_roundtrip 0x02 0xA0); lia. Defined.

(** *** Arrays and their buffers *)

Lemma elements_of_buffer (b : list Z) :
  Uint8Array.elements (Uint8Array.of_buffer b) = b.
Proof. unfold Uint8Array.elements. cbn. apply firstn_all. Qed.

(** *** Decoding over a buffer of at least eight bytes *)

Section DecodeShape.
Variable registers : Record_number RegisterDefinition.
Variables (id b0 b1 b2 b3 b4 b5 b6 b7 : Z) (rest : list Z).
Variable dataBytes : Uint8Array.t.

Let payload := b0 :: b1 :: b2 :: b3 :: b4 :: b5 :: b6 :: b7 :: rest.

Hypothesis Hbuffer : Uint8Array.buffer dataBytes = payload.

Lemma error_annotation_eq :
  (if existsb (Z.eqb b0) [0xF0; 0xF1; 0xF2] then
     if b0 =? 0xF2 then (true, "F2: Failure, discard frame"%string)
     else if b0 =? 0xF1 then (false, "F1: Forced to default value"%string)
     else (false, ""%string)
   else (false, ""%string))
  = (error_flag b0, error_text b0).
Proof.
  unfold error_flag, error_text. simpl.
  destruct (b0 =? 0xF2) eqn:E2; destruct (b0 =? 0xF1) eqn:E1;
    destruct (b0 =? 0xF0) eqn:E0; reflexivity.
Qed.

Lemma is_float_kind_eq (t : RegisterType) :
  RegisterType_eqb t READ_ONLY_FLOAT || RegisterType_eqb t WRITE_ONLY_FLOAT
  = is_float_kind t.
Proof. now destruct t. Qed.

(** All reads of [decodeFrame] stay inside the first eight bytes of the
    buffer; the transcript is that of the elements. *)
Lemma decodeFrameWith_view :
  decodeFrameWith registers id dataBytes
  = Ok {| Types.mxrId := mxrId (parseFrameId id);
          Types.moduleType := moduleType (parseFrameId id);
          Types.dstAddr := dstAddr (parseFrameId id);
          Types.srcAddr := srcAddr (parseFrameId id);
          register := b2 * 256 + b3;
          rawPayloadHex := payloadHex (Uint8Array.elements dataBytes);
          decodedValue :=
            decoded_of_word registers (b2 * 256 + b3)
              (be_value [b4; b5; b6; b7]);
          isError := error_flag b0;
          errorDescription := error_text b0 |}.
Proof.
  unfold decodeFrameWith, decoded_of_word, option_label, labelled.
  rewrite Hbuffer.
  change (getUint8 payload 0) with (Ok b0).
  change (getUint16 payload 2) with (Ok (b2 * 256 + b3)).
  change (getUint32 payload 4) with (Ok (be_value [b4; b5; b6; b7])).
  change (getInt32 payload 4) with (Ok (ToInt32 (be_value [b4; b5; b6; b7]))).
  change (getFloat32 payload 4)
    with (Ok (ofFloat32 (float32_of_bits (be_value [b4; b5; b6; b7])))).
  cbn [bind]. rewrite error_annotation_eq.
  destruct (lookup registers (b2 * 256 + b3)) as [def|]; [|reflexivity].
  rewrite is_float_kind_eq.
  destruct (is_float_kind (type def)); [reflexivity|].
  cbn [bind].
  destruct (truthy _); [reflexivity|].
  destruct (address def =? 0x0100); reflexivity.
Qed.

End DecodeShape.

(** The same for an array that spans its buffer. *)
Lemma decodeFrameWith_ok (registers : Record_number RegisterDefinition)
    (id b0 b1 b2 b3 b4 b5 b6 b7 : Z) (rest : list Z) :
  decodeFrameWith registers id
    (Uint8Array.of_buffer
       (b0 :: b1 :: b2 :: b3 :: b4 :: b5 :: b6 :: b7 :: rest))
  = Ok {| Types.mxrId := mxrId (parseFrameId id);
          Types.moduleType := moduleType (parseFrameId id);
          Types.dstAddr := dstAddr (parseFrameId id);
          Types.srcAddr := srcAddr (parseFrameId id);
          register := b2 * 256 + b3;
          rawPayloadHex :=
            payloadHex (b0 :: b1 :: b2 :: b3 :: b4 :: b5 :: b6 :: b7 :: rest);
          decodedValue :=
            decoded_of_word registers (b2 * 256 + b3)
              (be_value [b4; b5; b6; b7]);
          isError := error_flag b0;
          errorDescription := error_text b0 |}.
Proof.
  rewrite (decodeFrameWith_view registers id b0 b1 b2 b3 b4 b5 b6 b7 rest)
    by reflexivity.
  now rewrite elements_of_buffer.
Qed.

Lemma decodeFrame_view (id b0 b1 b2 b3 b4 b5 b6 b7 : Z) (rest : list Z)
    (dataBytes : Uint8Array.t) :
  Uint8Array.buffer dataBytes
  = b0 :: b1 :: b2 :: b3 :: b4 :: b5 :: b6 :: b7 :: rest ->
  decodeFrame id dataBytes
  = Ok {| Types.mxrId := mxrId (parseFrameId id);
          Types.moduleType := moduleType (parseFrameId id);
          Types.dstAddr := dstAddr (parseFrameId id);
          Types.srcAddr := srcAddr (parseFrameId id);
          register := b2 * 256 + b3;
          rawPayloadHex := payloadHex (Uint8Array.elements dataBytes);
          decodedValue :=
            decoded_of_word REGISTERS (b2 * 256 + b3)
              (be_value [b4; b5; b6; b7]);
          isError := error_flag b0;
          errorDescription := error_text b0 |}.
Proof. apply decodeFrameWith_view. Qed.

Lemma decodeFrame_ok (id b0 b1 b2 b3 b4 b5 b6 b7 : Z) (rest : list Z) :
  decodeFrame id
    (Uint8Array.of_buffer
       (b0 :: b1 :: b2 :: b3 :: b4 :: b5 :: b6 :: b7 :: rest))
  = Ok {| Types.mxrId := mxrId (parseFrameId id);
          Types.moduleType := moduleType (parseFrameId id);
          Types.dstAddr := dstAddr (parseFrameId id);
          Types.srcAddr := srcAddr (parseFrameId id);
          register := b2 * 256 + b3;
          rawPayloadHex :=
            payloadHex (b0 :: b1 :: b2 :: b3 :: b4 :: b5 :: b6 :: b7 :: rest);
          decodedValue :=
            decoded_of_word REGISTERS (b2 * 256 + b3)
              (be_value [b4; b5; b6; b7]);
          isError := error_flag b0;
          errorDescription := error_text b0 |}.
Proof. apply decodeFrameWith_ok. Qed.

(** A buffer of fewer than eight bytes makes one of the reads fail. *)
Lemma decodeFrameWith_short (registers : Record_number RegisterDefinition)
    (id : Z) (dataBytes : Uint8Array.t) :
  (List.length (Uint8Array.buffer dataBytes) < 8)%nat ->
  decodeFrameWith registers id dataBytes = Throw RangeError.
Proof.
  intros Hlen.
  destruct dataBytes as [payload offset len]. cbn [Uint8Array.buffer] in Hlen.
  destruct payload as [|b0 [|b1 [|b2 [|b3 [|b4 [|b5 [|b6 [|b7 rest]]]]]]]];
    simpl in Hlen; try lia; try reflexivity;
    unfold decodeFrameWith; cbn [Uint8Array.buffer];
    match goal with
    | |- context [getUint8 ?v 0] => change (getUint8 v 0) with (Ok b0)
    end;
    match goal with
    | |- context [getUint16 ?v 2] =>
        change (getUint16 v 2) with (Ok (b2 * 256 + b3))
    end;
    cbn [bind]; rewrite error_annotation_eq;
    (destruct (lookup registers (b2 * 256 + b3)) as [def|]; [|reflexivity]);
    rewrite is_float_kind_eq; destruct (is_float_kind (type def));
    reflexivity.
Qed.

Lemma decodeFrame_short (id : Z) (dataBytes : Uint8Array.t) :
  (List.length (Uint8Array.buffer dataBytes) < 8)%nat ->
  decodeFrame id dataBytes = Throw RangeError.
Proof. apply decodeFrameWith_short. Qed.

(** *** Payload length *)

(** C3, refuted as stated: a payload of nine bytes is not rejected. *)
Lemma C3_nine_bytes_accepted :
  Uint8Array.length
    (Uint8Array.of_buffer
       [0xF0; 0x00; 0x00; 0x01; 0x44; 0x2F; 0x00; 0x00; 0xFF]) <> 8%nat
  /\ throws
       (decodeFrame 0x1581A002
          (Uint8Array.of_buffer
             [0xF0; 0x00; 0x00; 0x01; 0x44; 0x2F; 0x00; 0x00; 0xFF]))
     = false.
Proof. split; [discriminate | vm_compute; reflexivity]. Qed.

(** C3, amended. [decodeFrame] has no length check of its own. For a
    payload that spans its buffer: one shorter than eight bytes fails with
    the [RangeError] of the [DataView] access; one of eight bytes or more
    is decoded from its first eight bytes, all of its bytes appearing in
    the hex transcript, so an eight-byte payload never fails. *)
Theorem C3_payload_length (id : Z) (payload : list Z) :
  if (List.length payload <? 8)%nat
  then decodeFrame id (Uint8Array.of_buffer payload) = Throw RangeError
  else exists f8,
      decodeFrame id (Uint8Array.of_buffer (firstn 8 payload)) = Ok f8
      /\ decodeFrame id (Uint8Array.of_buffer payload)
         = Ok (with_rawPayloadHex f8 (payloadHex payload)).
Proof.
  destruct (Nat.ltb_spec (List.length payload) 8) as [Hlt | Hge].
  - now apply decodeFrame_short.
  - destruct payload as [|b0 [|b1 [|b2 [|b3 [|b4 [|b5 [|b6 [|b7 rest]]]]]]]];
      simpl in Hge; try lia.
    cbn [firstn]. rewrite !decodeFrame_ok.
    eexists. split; reflexivity.
Qed.

(** *** Return codes *)

(** C4, at the second of two payloads received into one buffer, passed
    as a window of eight bytes: byte 0 of the payload is 0xF2, as the
    transcript shows, and the frame returned has no error flag and an
    empty description, the return code being byte 0 of the buffer. The
    same eight bytes in an array of their own are an error. *)
Theorem C4_subarray_return_code :
  let dataBytes :=
    Uint8Array.subarray
      (Uint8Array.of_buffer
         [0xF0; 0x00; 0x00; 0x01; 0x44; 0x2F; 0x00; 0x00;
          0xF2; 0x00; 0x00; 0x01; 0x00; 0x00; 0x00; 0x00])
      8 16 in
  Uint8Array.length dataBytes = 8%nat
  /\ Uint8Array.elements dataBytes
     = [0xF2; 0x00; 0x00; 0x01; 0x00; 0x00; 0x00; 0x00]
  /\ (exists f,
        decodeFrame 0x1581A002 dataBytes = Ok f
        /\ rawPayloadHex f = "F2 00 00 01 00 00 00 00"%string
        /\ isError f = false
        /\ errorDescription f = ""%string)
  /\ (exists f,
        decodeFrame 0x1581A002
          (Uint8Array.of_buffer (Uint8Array.elements dataBytes)) = Ok f
        /\ rawPayloadHex f = "F2 00 00 01 00 00 00 00"%string
        /\ isError f = true
        /\ errorDescription f = "F2: Failure, discard frame"%string).
Proof.
  cbv zeta. split; [reflexivity|]. split; [reflexivity|].
  split; eexists; (split; [vm_compute; reflexivity|]); repeat split.
Qed.

(** X15. On every eight-byte payload that spans its buffer [decodeFrame]
    returns a frame whose error flag is set exactly when byte 0 is 0xF2,
    with description "F2: Failure, discard frame"; byte 0 = 0xF1 gives no
    error and "F1: Forced to default value"; every other byte 0 gives no
    error and the empty description, whatever the other bytes are. *)
Theorem decodeFrame_return_code (id b0 b1 b2 b3 b4 b5 b6 b7 : Z) :
  exists f,
    decodeFrame id (Uint8Array.of_buffer [b0; b1; b2; b3; b4; b5; b6; b7])
    = Ok f
    /\ isError f = (b0 =? 0xF2)
    /\ errorDescription f
       = if b0 =? 0xF2 then "F2: Failure, discard frame"%string
         else if b0 =? 0xF1 then "F1: Forced to default value"%string
         else ""%string.
Proof.
  rewrite decodeFrame_ok. eexists. split; [reflexivity|]. split; reflexivity.
Qed.

(** C10. Whenever [decodeFrame] returns a frame with the error flag set,
    its description is "F2: Failure, discard frame", which is not empty. *)
Theorem C10_error_has_text (id : Z) (payload : Uint8Array.t)
    (f : DecodedFrame) :
  decodeFrame id payload = Ok f ->
  isError f = true ->
  errorDescription f = "F2: Failure, discard frame"%string
  /\ errorDescription f <> ""%string.
Proof.
  intros Hdec Herr.
  assert (Htext : errorDescription f = "F2: Failure, discard frame"%string).
  { destruct (Nat.ltb_spec (List.length (Uint8Array.buffer payload)) 8)
      as [Hlt | Hge].
    - rewrite decodeFrame_short in Hdec by assumption. discriminate.
    - destruct (Uint8Array.buffer payload)
        as [|b0 [|b1 [|b2 [|b3 [|b4 [|b5 [|b6 [|b7 rest]]]]]]]] eqn:Hbuf;
        simpl in Hge; try lia.
      rewrite (decodeFrame_view id b0 b1 b2 b3 b4 b5 b6 b7 rest payload Hbuf)
        in Hdec.
      injection Hdec as <-.
      cbn [isError errorDescription] in *.
      unfold error_flag in Herr. unfold error_text. now rewrite Herr. }
  split; [assumption|]. rewrite Htext. discriminate.
Qed.

Lemma C10_error_has_text_witness :
  exists f,
    decodeFrame 0x1581A002
      (Uint8Array.of_buffer [0xF2; 0x00; 0x01; 0x01; 0x00; 0x00; 0x00; 0x02])
    = Ok f
    /\ isError f = true
    /\ errorDescription f = "F2: Failure, discard frame"%string
    /\ errorDescription f <> ""%string.
Proof.
  eexists. split; [vm_compute; reflexivity|]. split; [reflexivity|].
  apply (C10_error_has_text 0x1581A002
           (Uint8Array.of_buffer
              [0xF2; 0x00; 0x01; 0x01; 0x00; 0x00; 0x00; 0x02]));
    [vm_compute|]; reflexivity.
Defined.

(** *** The literal response frame *)

(** C9. Identifier 0x1581A002 with payload F0 00 00 01 44 2F 00 00 decodes
    to register 0x0001, the float register "Output Voltage", with decoded
    value 700 and no error. *)
Theorem C9_output_voltage_700 :
  decodeFrame 0x1581A002
    (Uint8Array.of_buffer [0xF0; 0x00; 0x00; 0x01; 0x44; 0x2F; 0x00; 0x00])
  = Ok {| Types.mxrId := 0x15;
          Types.moduleType := 0x81;
          Types.dstAddr := 0xA0;
          Types.srcAddr := 0x02;
          register := 0x0001;
          rawPayloadHex := "F0 00 00 01 44 2F 00 00"%string;
          decodedValue := Num (Z2num 700);
          isError := false;
          errorDescription := ""%string |}
  /\ lookup REGISTERS 0x0001
     = Some {| address := 0x0001; name := "Output Voltage"%string;
               type := READ_ONLY_FLOAT; unit := Some "V"%string;
               description := "Current output voltage"%string;
               options := None |}
  /\ float32_of_bits (be_value [0x44; 0x2F; 0x00; 0x00])
     = S754_finite false (700 * 2 ^ 14) (- 14).
Proof. repeat split; vm_compute; reflexivity. Qed.

(** *** Hexadecimal rendering *)

Lemma hex_digit_roundtrip (d : Z) :
  0 <= d < 16 -> hex_digit_value (upper_char (digit_char d)) = d.
Proof.
  intros Hd.
  assert (H : In d (map Z.of_nat (seq 0 16))).
  { apply in_map_iff. exists (Z.to_nat d). split; [lia|]. apply in_seq. lia. }
  cbn in H. repeat (destruct H as [<- | H]; [reflexivity|]). contradiction.
Qed.

Lemma hex_value_digits (fuel : nat) :
  forall (n : Z) (acc : string),
    (1 <= fuel)%nat -> 0 <= n < 2 ^ Z.of_nat fuel ->
    hex_value (toUpperCase (digits_acc fuel 16 n acc))
    = hex_value_from n (toUpperCase acc).
Proof.
  induction fuel as [|fuel IH]; intros n acc Hfuel Hn; [lia|].
  cbn [digits_acc].
  assert (Hmod : 0 <= n mod 16 < 16) by (apply Z.mod_pos_bound; lia).
  destruct (Z.eqb_spec (n / 16) 0) as [Hq | Hq].
  - unfold hex_value. cbn [toUpperCase hex_value_from].
    rewrite hex_digit_roundtrip by assumption.
    f_equal. Z.div_mod_to_equations; lia.
  - assert (Hn16 : 16 <= n) by (Z.div_mod_to_equations; lia).
    destruct fuel as [|fuel'].
    { change (2 ^ Z.of_nat 1) with 2 in Hn. lia. }
    rewrite IH.
    + cbn [toUpperCase hex_value_from].
      rewrite hex_digit_roundtrip by assumption.
      f_equal. Z.div_mod_to_equations; lia.
    + lia.
    + split; [Z.div_mod_to_equations; lia|].
      apply Z.div_lt_upper_bound; [lia|].
      replace (Z.of_nat (S (S fuel'))) with (Z.of_nat (S fuel') + 1) in Hn
        by lia.
      rewrite Z.pow_add_r in Hn by lia. lia.
Qed.

(** The upper-case hex text of a non-negative integer reads back as it. *)
Lemma hex_value_toString (n : Z) :
  0 <= n -> hex_value (toUpperCase (toStringRadix 16 n)) = n.
Proof.
  intros Hn. unfold toStringRadix.
  destruct (Z.ltb_spec n 0) as [|_]; [lia|].
  rewrite hex_value_digits; [reflexivity | lia |].
  split; [assumption|].
  destruct (Z.eq_dec n 0) as [-> | Hnz]; [reflexivity|].
  rewrite Nat2Z.inj_succ, Z2Nat.id by apply Z.log2_nonneg.
  apply Z.log2_spec. lia.
Qed.

(** *** Unknown registers *)

(** C8, at the second of two payloads received into one buffer, passed
    as a window of eight bytes: bytes 2 to 3 of the payload spell 0x9999,
    which is not in the register table, and the frame returned is that of
    the first payload, register 0x0001 with value 700, without the marker
    of an unknown register. The same eight bytes in an array of their own
    give the marker and the hex text of bytes 4 to 7. *)
Theorem C8_subarray_unknown_register :
  let dataBytes :=
    Uint8Array.subarray
      (Uint8Array.of_buffer
         [0xF0; 0x00; 0x00; 0x01; 0x44; 0x2F; 0x00; 0x00;
          0xF0; 0x00; 0x99; 0x99; 0x00; 0x01; 0xAB; 0xCD])
      8 16 in
  Uint8Array.length dataBytes = 8%nat
  /\ Uint8Array.elements dataBytes
     = [0xF0; 0x00; 0x99; 0x99; 0x00; 0x01; 0xAB; 0xCD]
  /\ lookup REGISTERS 0x9999 = None
  /\ (exists f,
        decodeFrame 0x1581A002 dataBytes = Ok f
        /\ rawPayloadHex f = "F0 00 99 99 00 01 AB CD"%string
        /\ register f = 0x0001
        /\ decodedValue f = Num (Z2num 700))
  /\ (exists f,
        decodeFrame 0x1581A002
          (Uint8Array.of_buffer (Uint8Array.elements dataBytes)) = Ok f
        /\ rawPayloadHex f = "F0 00 99 99 00 01 AB CD"%string
        /\ register f = 0x9999
        /\ decodedValue f = Str "Unknown Reg: 0x1ABCD").
Proof.
  cbv zeta. split; [reflexivity|]. split; [reflexivity|].
  split; [reflexivity|].
  split; eexists; (split; [vm_compute; reflexivity|]); repeat split.
Qed.

(** X18. When bytes 2 to 3 of an eight-byte payload that spans its buffer
    spell an address that is not in the register table, [decodeFrame]
    returns a frame whose decoded value is the marker "Unknown Reg: 0x"
    followed by the upper-case hexadecimal text of the unsigned 32-bit
    integer of bytes 4 to 7. *)
Theorem decodeFrame_unknown_register (id b0 b1 b2 b3 b4 b5 b6 b7 : Z) :
  lookup REGISTERS (b2 * 256 + b3) = None ->
  0 <= b4 < 256 -> 0 <= b5 < 256 -> 0 <= b6 < 256 -> 0 <= b7 < 256 ->
  exists f hex,
    decodeFrame id (Uint8Array.of_buffer [b0; b1; b2; b3; b4; b5; b6; b7])
    = Ok f
    /\ decodedValue f = Str ("Unknown Reg: 0x" ++ hex)
    /\ hex = toUpperCase (toStringRadix 16 (be_value [b4; b5; b6; b7]))
    /\ hex_value hex = ((b4 * 256 + b5) * 256 + b6) * 256 + b7
    /\ 0 <= hex_value hex < 2 ^ 32.
Proof.
  intros Hreg H4 H5 H6 H7. rewrite decodeFrame_ok.
  eexists. eexists. split; [reflexivity|].
  cbn [decodedValue]. unfold decoded_of_word. rewrite Hreg.
  split; [reflexivity|]. split; [reflexivity|].
  change (be_value [b4; b5; b6; b7])
    with (((b4 * 256 + b5) * 256 + b6) * 256 + b7).
  rewrite hex_value_toString by lia.
  split; [reflexivity|]. change (2 ^ 32) with 4294967296. lia.
Qed.

Lemma decodeFrame_unknown_register_witness :
  exists f hex,
    decodeFrame 0x1581A002
      (Uint8Array.of_buffer [0xF0; 0x00; 0x99; 0x99; 0x00; 0x01; 0xAB; 0xCD])
    = Ok f
    /\ decodedValue f = Str ("Unknown Reg: 0x" ++ hex)
    /\ hex = toUpperCase (toStringRadix 16 (be_value [0x00; 0x01; 0xAB; 0xCD]))
    /\ hex_value hex = ((0x00 * 256 + 0x01) * 256 + 0xAB) * 256 + 0xCD
    /\ 0 <= hex_value hex < 2 ^ 32.
Proof.
  apply (decodeFrame_unknown_register
           0x1581A002 0xF0 0x00 0x99 0x99 0x00 0x01 0xAB 0xCD);
    [reflexivity | lia | lia | lia | lia].
Defined.

(** *** Option labels *)

(** In any register table, an integer register with a non-empty label for
    the decoded integer yields the labelled text, also when its address is
    that of the alarm bitmap: the label is looked up first. *)
Lemma decodeFrameWith_option_first
    (registers : Record_number RegisterDefinition)
    (id b0 b1 b2 b3 b4 b5 b6 b7 : Z) (def : RegisterDefinition)
    (label : string) :
  lookup registers (b2 * 256 + b3) = Some def ->
  is_float_kind (type def) = false ->
  option_label def (ToInt32 (be_value [b4; b5; b6; b7])) = Some label ->
  label <> ""%string ->
  exists f,
    decodeFrameWith registers id
      (Uint8Array.of_buffer [b0; b1; b2; b3; b4; b5; b6; b7]) = Ok f
    /\ decodedValue f
       = Str (labelled (ToInt32 (be_value [b4; b5; b6; b7])) label).
Proof.
  intros Hreg Hkind Hopt Hne. rewrite decodeFrameWith_ok.
  eexists. split; [reflexivity|].
  cbn [decodedValue]. unfold decoded_of_word.
  rewrite Hreg, Hkind, Hopt. cbn [truthy].
  destruct (String.eqb_spec label ""); [contradiction | reflexivity].
Qed.

Ltac split_lookup H :=
  repeat match type of H with
         | (if ?c then _ else _) = _ => destruct c
         end.

(** No label of the register table is the empty string. *)
Lemma REGISTERS_labels_nonempty (reg val : Z) (def : RegisterDefinition)
    (label : string) :
  lookup REGISTERS reg = Some def ->
  option_label def val = Some label ->
  label <> ""%string.
Proof.
  intros Hreg Hopt. unfold REGISTERS in Hreg. cbn [lookup] in Hreg.
  split_lookup Hreg; try discriminate; injection Hreg as <-;
    unfold option_label in Hopt; cbn [options lookup] in Hopt;
    split_lookup Hopt; try discriminate; injection Hopt as <-; discriminate.
Qed.

(** C7, at the second of two payloads received into one buffer, passed
    as a window of eight bytes: the payload names register 0x0101 with the
    integer 7, for which the register defines the label "Running", and the
    frame returned is that of the first payload, register 0x0001 with
    value 700. The same eight bytes in an array of their own give
    "7 (Running)". *)
Theorem C7_subarray_option_label :
  let dataBytes :=
    Uint8Array.subarray
      (Uint8Array.of_buffer
         [0xF0; 0x00; 0x00; 0x01; 0x44; 0x2F; 0x00; 0x00;
          0xF0; 0x00; 0x01; 0x01; 0x00; 0x00; 0x00; 0x07])
      8 16 in
  Uint8Array.length dataBytes = 8%nat
  /\ Uint8Array.elements dataBytes
     = [0xF0; 0x00; 0x01; 0x01; 0x00; 0x00; 0x00; 0x07]
  /\ (exists f,
        decodeFrame 0x1581A002 dataBytes = Ok f
        /\ rawPayloadHex f = "F0 00 01 01 00 00 00 07"%string
        /\ register f = 0x0001
        /\ decodedValue f = Num (Z2num 700))
  /\ (exists f,
        decodeFrame 0x1581A002
          (Uint8Array.of_buffer (Uint8Array.elements dataBytes)) = Ok f
        /\ rawPayloadHex f = "F0 00 01 01 00 00 00 07"%string
        /\ register f = 0x0101
        /\ decodedValue f = Str "7 (Running)").
Proof.
  cbv zeta. split; [reflexivity|]. split; [reflexivity|].
  split; eexists; (split; [vm_compute; reflexivity|]); repeat split.
Qed.

(** X17. When bytes 2 to 3 of an eight-byte payload that spans its buffer
    name an integer register of the table that defines a label for the
    signed 32-bit integer of bytes 4 to 7, the decoded value is the text
    "<int> (<label>)", whatever the address of the register; register
    0x0101 with value 7 gives "7 (Running)". *)
Theorem decodeFrame_option_label (id b0 b1 b2 b3 b4 b5 b6 b7 : Z)
    (def : RegisterDefinition) (label : string) :
  lookup REGISTERS (b2 * 256 + b3) = Some def ->
  is_float_kind (type def) = false ->
  option_label def (ToInt32 (be_value [b4; b5; b6; b7])) = Some label ->
  (exists f,
      decodeFrame id (Uint8Array.of_buffer [b0; b1; b2; b3; b4; b5; b6; b7])
      = Ok f
      /\ decodedValue f
         = Str (toStringRadix 10 (ToInt32 (be_value [b4; b5; b6; b7]))
                ++ " (" ++ label ++ ")"))
  /\ (exists f,
         decodeFrame id
           (Uint8Array.of_buffer
              [b0; b1; 0x01; 0x01; 0x00; 0x00; 0x00; 0x07]) = Ok f
         /\ decodedValue f = Str "7 (Running)").
Proof.
  intros Hreg Hkind Hopt. split.
  - apply (decodeFrameWith_option_first REGISTERS id b0 b1 b2 b3 b4 b5 b6 b7
             def label); try assumption.
    exact (REGISTERS_labels_nonempty _ _ _ _ Hreg Hopt).
  - rewrite decodeFrame_ok. eexists. split; [reflexivity|].
    vm_compute. reflexivity.
Qed.

Lemma decodeFrame_option_label_witness :
  (exists f,
      decodeFrame 0x1581A002
        (Uint8Array.of_buffer [0xF0; 0x00; 0x04; 0x00; 0x00; 0x00; 0x00; 0x01])
      = Ok f
      /\ decodedValue f
         = Str (toStringRadix 10 (ToInt32 (be_value [0x00; 0x00; 0x00; 0x01]))
                ++ " (" ++ "Shutdown (0x01)" ++ ")"))
  /\ (exists f,
         decodeFrame 0x1581A002
           (Uint8Array.of_buffer
              [0xF0; 0x00; 0x01; 0x01; 0x00; 0x00; 0x00; 0x07])
         = Ok f
         /\ decodedValue f = Str "7 (Running)").
Proof.
  apply (decodeFrame_option_label 0x1581A002 0xF0 0x00 0x04 0x00 0x00 0x00 0x00 0x01
           {| address := 0x0400; name := "Control Command";
              type := WRITE_ONLY_INT; unit := None;
              description := "Set Startup/Shutdown";
              options := Some [(0, "Startup (0x00)"%string);
                               (1, "Shutdown (0x01)"%string)] |}
           "Shutdown (0x01)");
    reflexivity.
Defined.

(** A table whose alarm register also has a label for 1: the label wins
    over the bitmap text. *)
Example option_before_alarm_bitmap :
  exists f,
    decodeFrameWith
      [(0x0100, {| address := 0x0100; name := "Alarm Info";
                   type := READ_ONLY_INT; unit := None;
                   description := "Bitmap of alarms";
                   options := Some [(1, "Only input overvoltage"%string)] |})]
      0x1581A002
      (Uint8Array.of_buffer [0xF0; 0x00; 0x01; 0x00; 0x00; 0x00; 0x00; 0x01])
    = Ok f
    /\ decodedValue f = Str "1 (Only input overvoltage)"
    /\ alarm_text 1 = "Input Overvoltage"%string.
Proof. eexists. repeat split; vm_compute; reflexivity. Qed.

(** *** The alarm bitmap *)

Lemma ToInt32_mod (z : Z) : ToInt32 z mod 2 ^ 32 = z mod 2 ^ 32.
Proof.
  unfold ToInt32. change (2 ^ 32) with 4294967296.
  change (2 ^ 31) with 2147483648.
  destruct (Z.leb_spec 2147483648 (z mod 4294967296));
    Z.div_mod_to_equations; lia.
Qed.

(** ToInt32 keeps the low 32 bits. *)
Lemma ToInt32_testbit (z i : Z) :
  0 <= i < 32 -> Z.testbit (ToInt32 z) i = Z.testbit z i.
Proof.
  intros Hi.
  rewrite <- (Z.mod_pow2_bits_low (ToInt32 z) 32 i) by lia.
  rewrite ToInt32_mod. apply Z.mod_pow2_bits_low. lia.
Qed.

(** The test [(val >> i) & 1] of the loop reads bit [i] of [val]. *)
Lemma alarm_bit_test (val i : Z) :
  0 <= i < 32 ->
  negb (band (sar val i) 1 =? 0) = Z.testbit val i.
Proof.
  intros Hi. unfold band, sar.
  assert (Hc : ToUint32 i mod 32 = i).
  { unfold ToUint32. rewrite (Z.mod_small i (2 ^ 32))
      by (change (2 ^ 32) with 4294967296; lia).
    apply Z.mod_small. lia. }
  rewrite Hc. change (ToInt32 1) with (Z.ones 1).
  rewrite Z.land_ones by lia. change (2 ^ 1) with 2.
  rewrite <- Z.bit0_mod, ToInt32_testbit by lia.
  rewrite Z.shiftr_spec by lia. rewrite Z.add_0_l.
  rewrite ToInt32_testbit by lia.
  now destruct (Z.testbit val i).
Qed.

Lemma fold_left_push {A B : Type} (p : A -> bool) (g : A -> B) (l : list A) :
  forall acc,
    fold_left (fun acc i => if p i then acc ++ [g i] else acc) l acc
    = acc ++ map g (filter p l).
Proof.
  induction l as [|x l IH]; intros acc; cbn [fold_left filter].
  - now rewrite app_nil_r.
  - rewrite IH. destruct (p x); [|reflexivity].
    cbn [map]. now rewrite <- app_assoc.
Qed.

Lemma seq_below (n : nat) : Forall (fun i => (i < n)%nat) (seq 0 n).
Proof. apply Forall_forall. intros i Hi. apply in_seq in Hi. lia. Qed.

Lemma filter_below (p : nat -> bool) (n : nat) (l : list nat) :
  Forall (fun i => (i < n)%nat) l -> Forall (fun i => (i < n)%nat) (filter p l).
Proof.
  rewrite !Forall_forall. intros H i Hi. apply filter_In in Hi. now apply H.
Qed.

Lemma filter_agree {A : Type} (P : A -> Prop) (p q : A -> bool) (l : list A) :
  Forall P l -> (forall x, P x -> p x = q x) -> filter p l = filter q l.
Proof.
  intros Hl Hpq. induction Hl as [|x l Hx _ IH]; [reflexivity|].
  cbn [filter]. now rewrite IH, (Hpq x Hx).
Qed.

(** The loop, over any list of bit positions below 32, collects the labels
    of those that are set in [val], in the order of the list. *)
Lemma collect_over (val : Z) (l : list nat) :
  Forall (fun i => (i < 32)%nat) l ->
  fold_left
    (fun alarms i =>
       if negb (band (sar val (Z.of_nat i)) 1 =? 0)
       then alarms ++ [nth_error ALARM_BITS i]
       else alarms) l []
  = map (nth_error ALARM_BITS)
      (filter (fun i => Z.testbit val (Z.of_nat i)) l).
Proof.
  intros Hl.
  rewrite (fold_left_push
             (fun i => negb (band (sar val (Z.of_nat i)) 1 =? 0))
             (nth_error ALARM_BITS)).
  cbn [app]. f_equal.
  apply (filter_agree (fun i => (i < 32)%nat)); [assumption|].
  intros i Hi. apply alarm_bit_test. lia.
Qed.

Lemma collect_alarms_set_bits (val : Z) :
  collect_alarms val = map (nth_error ALARM_BITS) (set_bits val).
Proof. exact (collect_over val (seq 0 32) (seq_below 32)). Qed.

Lemma set_bits_below_32 (w : Z) : Forall (fun i => (i < 32)%nat) (set_bits w).
Proof. exact (filter_below _ 32 _ (seq_below 32)). Qed.

Lemma set_bits_ToInt32 (w : Z) : set_bits (ToInt32 w) = set_bits w.
Proof.
  apply (filter_agree (fun i => (i < 32)%nat)); [apply seq_below|].
  intros i Hi. apply ToInt32_testbit. lia.
Qed.

Lemma join_labels (sep : string) (bits : list nat) :
  Forall (fun i => (i < 32)%nat) bits ->
  join sep (map (nth_error ALARM_BITS) bits)
  = String.concat sep (map (fun i => nth i ALARM_BITS ""%string) bits).
Proof.
  induction 1 as [|i bits Hi _ IH]; [reflexivity|].
  assert (Hnth : nth_error ALARM_BITS i = Some (nth i ALARM_BITS ""%string))
    by (apply nth_error_nth'; exact Hi).
  cbn [map]. destruct bits as [|j bits'].
  - cbn [map join String.concat]. now rewrite Hnth.
  - cbn [map] in *. cbn [join String.concat]. rewrite Hnth.
    cbn [join String.concat] in IH. now rewrite IH.
Qed.

(** The text of the alarm branch is the alarm text of the bitmap. *)
Lemma alarm_branch_text (w : Z) :
  (if (0 <? List.length (collect_alarms (ToInt32 w)))%nat
   then join ", " (collect_alarms (ToInt32 w))
   else "No Alarms"%string)
  = alarm_text w.
Proof.
  rewrite collect_alarms_set_bits, set_bits_ToInt32. unfold alarm_text.
  rewrite join_labels by apply set_bits_below_32.
  now destruct (set_bits w).
Qed.

(** For the alarm register the integer path ends in the bitmap branch. *)
Lemma decoded_of_word_alarm (w : Z) :
  decoded_of_word REGISTERS 0x0100 w
  = Str (if (0 <? List.length (collect_alarms (ToInt32 w)))%nat
         then join ", " (collect_alarms (ToInt32 w))
         else "No Alarms"%string).
Proof. reflexivity. Qed.

(** C6, at the second of two payloads received into one buffer, passed
    as a window of eight bytes: bytes 2 to 3 of the payload are 01 00 and
    bytes 4 to 7 spell 5, and the frame returned is that of the first
    payload, register 0x0001 with value 700, not the alarm text. The same
    eight bytes in an array of their own give
    "Input Overvoltage, Output Overvoltage". *)
Theorem C6_subarray_alarm_bitmap :
  let dataBytes :=
    Uint8Array.subarray
      (Uint8Array.of_buffer
         [0xF0; 0x00; 0x00; 0x01; 0x44; 0x2F; 0x00; 0x00;
          0xF0; 0x00; 0x01; 0x00; 0x00; 0x00; 0x00; 0x05])
      8 16 in
  Uint8Array.length dataBytes = 8%nat
  /\ Uint8Array.elements dataBytes
     = [0xF0; 0x00; 0x01; 0x00; 0x00; 0x00; 0x00; 0x05]
  /\ (exists f,
        decodeFrame 0x1581A002 dataBytes = Ok f
        /\ rawPayloadHex f = "F0 00 01 00 00 00 00 05"%string
        /\ register f = 0x0001
        /\ decodedValue f = Num (Z2num 700))
  /\ (exists f,
        decodeFrame 0x1581A002
          (Uint8Array.of_buffer (Uint8Array.elements dataBytes)) = Ok f
        /\ rawPayloadHex f = "F0 00 01 00 00 00 00 05"%string
        /\ register f = 0x0100
        /\ decodedValue f = Str "Input Overvoltage, Output Overvoltage").
Proof.
  cbv zeta. split; [reflexivity|]. split; [reflexivity|].
  split; eexists; (split; [vm_compute; reflexivity|]); repeat split.
Qed.

(** X16. When bytes 2 to 3 of an eight-byte payload that spans its buffer
    are 01 00, the decoded value is the alarm text of the 32-bit word of
    bytes 4 to 7: the labels of its set bits in ascending bit order joined
    with ", ", or "No Alarms" when no bit is set; the value 5 (bits 0 and
    2) gives "Input Overvoltage, Output Overvoltage". *)
Theorem decodeFrame_alarm_bitmap (id b0 b1 b4 b5 b6 b7 : Z) :
  (exists f,
      decodeFrame id
        (Uint8Array.of_buffer [b0; b1; 0x01; 0x00; b4; b5; b6; b7]) = Ok f
      /\ register f = 0x0100
      /\ decodedValue f = Str (alarm_text (be_value [b4; b5; b6; b7])))
  /\ alarm_text 0 = "No Alarms"%string
  /\ alarm_text 5 = "Input Overvoltage, Output Overvoltage"%string
  /\ (exists f,
         decodeFrame id
           (Uint8Array.of_buffer
              [b0; b1; 0x01; 0x00; 0x00; 0x00; 0x00; 0x05]) = Ok f
         /\ decodedValue f = Str "Input Overvoltage, Output Overvoltage").
Proof.
  split; [|split; [reflexivity|split; [reflexivity|]]].
  - rewrite decodeFrame_ok. eexists. split; [reflexivity|].
    split; [reflexivity|]. cbn [decodedValue].
    change (0x01 * 256 + 0x00) with 0x0100.
    now rewrite decoded_of_word_alarm, alarm_branch_text.
  - rewrite decodeFrame_ok. eexists. split; [reflexivity|].
    vm_compute. reflexivity.
Qed.

(** *** Digits, shifts and rounding of [SpecFloat] *)

Section Digits.

Lemma digits2_pos_log2 (p : positive) :
  Z.pos (digits2_pos p) = Z.log2 (Z.pos p) + 1.
Proof.
  induction p as [p IH | p IH |]; cbn [digits2_pos]; [| |reflexivity];
    rewrite Pos2Z.inj_succ, IH.
  - rewrite Pos2Z.inj_xI, Z.log2_succ_double by lia. lia.
  - rewrite Pos2Z.inj_xO, Z.log2_double by lia. lia.
Qed.

Lemma Zdigits2_bounds (m : Z) :
  0 < m -> 0 < Zdigits2 m /\ 2 ^ (Zdigits2 m - 1) <= m < 2 ^ Zdigits2 m.
Proof.
  intros Hm. destruct m as [|p|p]; try lia.
  cbn [Zdigits2]. rewrite digits2_pos_log2.
  pose proof (Z.log2_nonneg (Z.pos p)).
  pose proof (Z.log2_spec (Z.pos p) Hm).
  replace (Z.log2 (Z.pos p) + 1 - 1) with (Z.log2 (Z.pos p)) by lia.
  replace (Z.log2 (Z.pos p) + 1) with (Z.succ (Z.log2 (Z.pos p))) by lia.
  lia.
Qed.

Lemma Zdigits2_unique (m d : Z) :
  0 < d -> 2 ^ (d - 1) <= m < 2 ^ d -> Zdigits2 m = d.
Proof.
  intros Hd Hm.
  assert (0 < m).
  { assert (0 < 2 ^ (d - 1)) by (apply Z.pow_pos_nonneg; lia). lia. }
  destruct m as [|p|p]; try lia.
  cbn [Zdigits2]. rewrite digits2_pos_log2.
  rewrite (Z.log2_unique (Z.pos p) (d - 1)); [lia | lia |].
  replace (Z.succ (d - 1)) with d by lia. assumption.
Qed.

Lemma pow2_split (a b : Z) : 0 <= a -> 0 <= b -> 2 ^ (a + b) = 2 ^ a * 2 ^ b.
Proof. intros. now apply Z.pow_add_r. Qed.

(** Dropping [n] low bits of a number that has more than [n] digits. *)
Lemma Zdigits2_div_pow2 (m n : Z) :
  0 <= n -> 2 ^ n <= m -> Zdigits2 (m / 2 ^ n) = Zdigits2 m - n.
Proof.
  intros Hn Hm.
  assert (Hp : 0 < 2 ^ n) by (apply Z.pow_pos_nonneg; lia).
  destruct (Zdigits2_bounds m ltac:(lia)) as [Hd [Hlo Hhi]].
  set (d := Zdigits2 m) in *.
  assert (Hnd : n < d).
  { destruct (Z.lt_ge_cases n d) as [|Hge]; [assumption|].
    assert (2 ^ d <= 2 ^ n) by (apply Z.pow_le_mono_r; lia). lia. }
  apply Zdigits2_unique; [lia|]. split.
  - apply Z.div_le_lower_bound; [lia|].
    rewrite <- pow2_split by lia. now replace (n + (d - n - 1)) with (d - 1) by lia.
  - apply Z.div_lt_upper_bound; [lia|].
    rewrite <- pow2_split by lia. now replace (n + (d - n)) with d by lia.
Qed.

Lemma Zdigits2_small (m n : Z) :
  0 <= m -> 0 <= n -> m < 2 ^ n -> Zdigits2 m <= n.
Proof.
  intros Hm Hn Hlt.
  destruct (Z.eq_dec m 0) as [-> | Hnz]; [cbn; lia|].
  destruct (Zdigits2_bounds m ltac:(lia)) as [Hd [Hlo Hhi]].
  destruct (Z.le_gt_cases (Zdigits2 m) n) as [|Hgt]; [assumption|].
  assert (2 ^ n <= 2 ^ (Zdigits2 m - 1)) by (apply Z.pow_le_mono_r; lia).
  lia.
Qed.

(** The successor has the same number of digits, or is the next power of
    two. *)
Lemma Zdigits2_succ (m : Z) :
  0 < m ->
  Zdigits2 (m + 1) = Zdigits2 m
  \/ (m + 1 = 2 ^ Zdigits2 m /\ Zdigits2 (m + 1) = Zdigits2 m + 1).
Proof.
  intros Hm.
  destruct (Zdigits2_bounds m Hm) as [Hd [Hlo Hhi]].
  set (d := Zdigits2 m) in *.
  destruct (Z.eq_dec (m + 1) (2 ^ d)) as [Heq | Hne].
  - right. split; [assumption|].
    apply Zdigits2_unique; [lia|].
    replace (d + 1 - 1) with d by lia. rewrite Heq.
    split; [lia|]. apply Z.pow_lt_mono_r; lia.
  - left. apply Zdigits2_unique; [lia|]. lia.
Qed.

End Digits.

Section RoundingValid.
Variables prec emax : Z.
Hypothesis Hprec : 0 < prec.

Local Abbreviation fexp := (fexp prec emax).
Local Abbreviation emin := (emin prec emax).

Lemma shr_1_m (r : shr_record) :
  0 <= shr_m r -> shr_m (shr_1 r) = shr_m r / 2.
Proof.
  destruct r as [m r s]. cbn [shr_m]. intros Hm.
  destruct m as [|[p|p|]|p]; cbn [shr_1 shr_m]; try lia; try reflexivity.
  - rewrite (Pos2Z.inj_xI p). Z.div_mod_to_equations; lia.
  - rewrite (Pos2Z.inj_xO p). Z.div_mod_to_equations; lia.
Qed.

Lemma iter_shr_1_m (n : positive) :
  forall r, 0 <= shr_m r ->
            shr_m (iter_pos shr_1 n r) = shr_m r / 2 ^ Z.pos n.
Proof.
  induction n as [n IH | n IH |]; intros r Hr; cbn [iter_pos].
  - assert (H1 : 0 <= shr_m (shr_1 r)).
    { rewrite shr_1_m by assumption. apply Z.div_pos; lia. }
    assert (H2 : 0 <= shr_m (iter_pos shr_1 n (shr_1 r))).
    { rewrite IH by assumption. apply Z.div_pos; [lia|].
      apply Z.pow_pos_nonneg; lia. }
    rewrite IH, IH, shr_1_m by assumption.
    rewrite !Z.div_div by (try apply Z.pow_pos_nonneg; lia).
    f_equal. rewrite (Pos2Z.inj_xI n).
    replace (2 * Z.pos n + 1) with (1 + Z.pos n + Z.pos n) by lia.
    rewrite !Z.pow_add_r by lia. change (2 ^ 1) with 2. lia.
  - assert (H2 : 0 <= shr_m (iter_pos shr_1 n r)).
    { rewrite IH by assumption. apply Z.div_pos; [lia|].
      apply Z.pow_pos_nonneg; lia. }
    rewrite IH, IH by assumption.
    rewrite !Z.div_div by (try apply Z.pow_pos_nonneg; lia).
    f_equal. rewrite (Pos2Z.inj_xO n).
    replace (2 * Z.pos n) with (Z.pos n + Z.pos n) by lia.
    now rewrite !Z.pow_add_r by lia.
  - now apply shr_1_m.
Qed.

Lemma shr_m_of_loc (m : Z) (l : location) : shr_m (shr_record_of_loc m l) = m.
Proof. now destruct l as [|[]]. Qed.

(** [shr_fexp] drops the bits below the exponent [fexp] asks for. *)
Lemma shr_fexp_spec (m e : Z) (l : location) :
  0 <= m ->
  let n := Z.max 0 (fexp (Zdigits2 m + e) - e) in
  shr_m (fst (shr_fexp prec emax m e l)) = m / 2 ^ n
  /\ snd (shr_fexp prec emax m e l) = e + n.
Proof.
  intros Hm n. unfold shr_fexp, SpecFloat.shr. subst n.
  destruct (fexp (Zdigits2 m + e) - e) as [|p|p] eqn:Hn; cbn [fst snd].
  - rewrite shr_m_of_loc. change (2 ^ Z.max 0 0) with 1.
    rewrite Z.div_1_r. change (Z.max 0 0) with 0. lia.
  - rewrite iter_shr_1_m by (rewrite shr_m_of_loc; assumption).
    rewrite shr_m_of_loc. now replace (Z.max 0 (Z.pos p)) with (Z.pos p) by lia.
  - rewrite shr_m_of_loc. replace (Z.max 0 (Z.neg p)) with 0 by lia.
    change (2 ^ 0) with 1. rewrite Z.div_1_r. lia.
Qed.

Lemma round_nearest_even_cases (m : Z) (l : location) :
  round_nearest_even m l = m \/ round_nearest_even m l = m + 1.
Proof.
  destruct l as [|[]]; cbn [round_nearest_even]; auto.
  destruct (Z.even m); auto.
Qed.

Lemma fexp_emin (d : Z) : emin <= fexp d.
Proof. unfold SpecFloat.fexp. lia. Qed.

(** The mantissa kept by the first shift is zero at the least exponent,
    or is in canonical position with at most [prec] digits. *)
Lemma first_shift (m e : Z) :
  0 < m -> e <= fexp (Zdigits2 m + e) ->
  let E := fexp (Zdigits2 m + e) in
  let m1 := m / 2 ^ (E - e) in
  (m1 = 0 /\ E = emin)
  \/ (0 < m1 /\ fexp (Zdigits2 m1 + E) = E /\ Zdigits2 m1 <= prec).
Proof.
  intros Hm He E m1.
  assert (Hp : 0 < 2 ^ (E - e)) by (apply Z.pow_pos_nonneg; lia).
  destruct (Z.le_gt_cases (2 ^ (E - e)) m) as [Hle | Hgt].
  - right.
    assert (Hd : Zdigits2 m1 = Zdigits2 m - (E - e))
      by (apply Zdigits2_div_pow2; lia).
    assert (0 < m1).
    { subst m1. apply Z.div_str_pos. lia. }
    split; [assumption|].
    replace (Zdigits2 m1 + E) with (Zdigits2 m + e) by lia.
    split; [reflexivity|].
    subst E. unfold SpecFloat.fexp in *. lia.
  - left. split; [apply Z.div_small; lia|].
    assert (Zdigits2 m <= E - e) by (apply Zdigits2_small; lia).
    subst E. unfold SpecFloat.fexp in *. lia.
Qed.

(** After rounding, one more shift at most restores the canonical
    position. *)
Lemma second_shift (m1 m2 E : Z) :
  (m1 = 0 /\ E = emin)
  \/ (0 < m1 /\ fexp (Zdigits2 m1 + E) = E /\ Zdigits2 m1 <= prec) ->
  m2 = m1 \/ m2 = m1 + 1 ->
  let n := Z.max 0 (fexp (Zdigits2 m2 + E) - E) in
  let m3 := m2 / 2 ^ n in
  m3 = 0 \/ (0 < m3 /\ fexp (Zdigits2 m3 + (E + n)) = E + n).
Proof.
  intros H1 H2 n m3.
  destruct H1 as [[-> HE] | [Hm1 [Hc Hd]]].
  - destruct H2 as [-> | ->].
    + left. subst m3. apply Z.div_0_l.
      assert (0 < 2 ^ n) by (apply Z.pow_pos_nonneg; lia). lia.
    + right. change (0 + 1) with 1 in *.
      change (Zdigits2 1) with 1 in n.
      assert (Hn : n = 0).
      { subst n. unfold SpecFloat.fexp. lia. }
      subst m3. rewrite Hn. change (1 / 2 ^ 0) with 1.
      change (Zdigits2 1) with 1.
      unfold SpecFloat.fexp. lia.
  - right. destruct H2 as [-> | ->].
    + assert (Hn : n = 0) by (subst n; lia).
      subst m3. rewrite Hn. change (2 ^ 0) with 1. rewrite Z.div_1_r.
      split; [assumption|]. now rewrite Z.add_0_r.
    + destruct (Zdigits2_succ m1 Hm1) as [Hsame | [Hpow Hnext]].
      * assert (Hn : n = 0) by (subst n; rewrite Hsame; lia).
        subst m3. rewrite Hn. change (2 ^ 0) with 1. rewrite Z.div_1_r.
        split; [lia|]. now rewrite Z.add_0_r, Hsame.
      * destruct (Zdigits2_bounds m1 Hm1) as [Hpos _].
        set (d1 := Zdigits2 m1) in *.
        destruct (Z.eq_dec d1 prec) as [Hfull | Hpart].
        -- assert (Hn : n = 1).
           { subst n. rewrite Hnext. unfold SpecFloat.fexp in *. lia. }
           subst m3. rewrite Hn, Hpow. change (2 ^ 1) with 2.
           assert (Hhalf : 2 ^ d1 / 2 = 2 ^ (d1 - 1)).
           { replace d1 with (1 + (d1 - 1)) at 1 by lia.
             rewrite Z.pow_add_r by lia. change (2 ^ 1) with 2.
             rewrite Z.mul_comm. apply Z.div_mul. lia. }
           rewrite Hhalf.
           assert (Hd3 : Zdigits2 (2 ^ (d1 - 1)) = d1).
           { apply Zdigits2_unique; [lia|]. split; [lia|].
             apply Z.pow_lt_mono_r; lia. }
           rewrite Hd3. split; [apply Z.pow_pos_nonneg; lia|].
           unfold SpecFloat.fexp in *. lia.
        -- assert (Hn : n = 0).
           { subst n. rewrite Hnext. unfold SpecFloat.fexp in *. lia. }
           subst m3. rewrite Hn. change (2 ^ 0) with 1. rewrite Z.div_1_r.
           split; [lia|]. rewrite Z.add_0_r, Hnext.
           unfold SpecFloat.fexp in *. lia.
Qed.

(** Rounding a mantissa that sits at or below its canonical position
    gives a float of the format. *)
Lemma binary_round_aux_valid (sx : bool) (m e : Z) (l : location) :
  0 < m -> e <= fexp (Zdigits2 m + e) ->
  valid_binary prec emax (binary_round_aux prec emax sx m e l) = true.
Proof.
  intros Hm He. unfold binary_round_aux.
  destruct (shr_fexp_spec m e l ltac:(lia)) as [Hm1 He1].
  destruct (shr_fexp prec emax m e l) as [mrs' e'].
  cbn [fst snd] in Hm1, He1.
  replace (Z.max 0 (fexp (Zdigits2 m + e) - e))
    with (fexp (Zdigits2 m + e) - e) in * by lia.
  assert (He' : e' = fexp (Zdigits2 m + e)) by lia.
  pose proof (first_shift m e Hm He) as Hfirst. cbv zeta in Hfirst.
  rewrite <- Hm1, <- He' in Hfirst.
  set (m2 := round_nearest_even (shr_m mrs') (loc_of_shr_record mrs')).
  assert (Hm2 : m2 = shr_m mrs' \/ m2 = shr_m mrs' + 1)
    by apply round_nearest_even_cases.
  assert (Hm2pos : 0 <= m2) by (destruct Hfirst as [[? ?]|[? ?]]; lia).
  destruct (shr_fexp_spec m2 e' loc_Exact Hm2pos) as [Hm3 He3].
  pose proof (second_shift _ _ _ Hfirst Hm2) as Hsecond. cbv zeta in Hsecond.
  destruct (shr_fexp prec emax m2 e' loc_Exact) as [mrs'' e''].
  cbn [fst snd] in Hm3, He3. rewrite <- Hm3, <- He3 in Hsecond.
  destruct (shr_m mrs'') as [|m3|m3]; [reflexivity| |lia].
  destruct Hsecond as [Hz | [_ Hc]]; [discriminate|].
  destruct (Z.leb_spec e'' (emax - prec)) as [Hle | Hgt]; [|reflexivity].
  cbn [valid_binary]. unfold bounded, canonical_mantissa.
  cbn [Zdigits2] in Hc. rewrite Hc, Z.eqb_refl. cbn [andb].
  now apply Z.leb_le.
Qed.

Lemma iter_xO (d p : positive) : Z.pos (Pos.iter xO p d) = Z.pos p * 2 ^ Z.pos d.
Proof.
  revert p. induction d using Pos.peano_ind; intros p.
  - cbn. lia.
  - rewrite Pos.iter_succ, Pos2Z.inj_xO, IHd, Pos2Z.inj_succ.
    rewrite Z.pow_succ_r by lia. lia.
Qed.

Lemma Zdigits2_mul_pow2 (m n : Z) :
  0 < m -> 0 <= n -> Zdigits2 (m * 2 ^ n) = Zdigits2 m + n.
Proof.
  intros Hm Hn.
  destruct (Zdigits2_bounds m Hm) as [Hd [Hlo Hhi]].
  assert (Hp : 0 < 2 ^ n) by (apply Z.pow_pos_nonneg; lia).
  apply Zdigits2_unique; [lia|].
  replace (Zdigits2 m + n - 1) with ((Zdigits2 m - 1) + n) by lia.
  rewrite !Z.pow_add_r by lia. nia.
Qed.

(** The alignment of [binary_round] keeps the value and puts the
    mantissa at or below its canonical position. *)
Lemma shl_align_spec (mx : positive) (ex : Z) :
  let E := fexp (Z.pos (digits2_pos mx) + ex) in
  let '(mz, ez) := shl_align mx ex E in
  ez = Z.min ex E
  /\ Z.pos mz = Z.pos mx * 2 ^ (ex - ez)
  /\ ez <= fexp (Zdigits2 (Z.pos mz) + ez).
Proof.
  intros E. unfold shl_align.
  destruct (E - ex) as [|d|d] eqn:Hd.
  - replace (ex - ex) with 0 by lia. change (2 ^ 0) with 1.
    cbn [Zdigits2]. fold E. lia.
  - replace (ex - ex) with 0 by lia. change (2 ^ 0) with 1.
    cbn [Zdigits2]. fold E. lia.
  - rewrite iter_xO. replace (ex - E) with (Z.pos d) by lia.
    split; [lia|]. split; [reflexivity|].
    rewrite Zdigits2_mul_pow2 by lia. cbn [Zdigits2].
    replace (Z.pos (digits2_pos mx) + Z.pos d + E)
      with (Z.pos (digits2_pos mx) + ex) by lia.
    fold E. lia.
Qed.

Theorem binary_round_valid (sx : bool) (mx : positive) (ex : Z) :
  valid_binary prec emax (binary_round prec emax sx mx ex) = true.
Proof.
  unfold binary_round.
  pose proof (shl_align_spec mx ex) as H. cbv zeta in H.
  destruct (shl_align mx ex (fexp (Z.pos (digits2_pos mx) + ex))) as [mz ez].
  destruct H as [_ [_ H]].
  apply binary_round_aux_valid; [lia | assumption].
Qed.

(** When the value needs no rounding, [binary_round] only moves the
    mantissa to its canonical position. *)
Lemma binary_round_exact (sx : bool) (mx : positive) (ex : Z) :
  let E := fexp (Z.pos (digits2_pos mx) + ex) in
  E <= ex -> E <= emax - prec ->
  binary_round prec emax sx mx ex
  = S754_finite sx (Z.to_pos (Z.pos mx * 2 ^ (ex - E))) E.
Proof.
  cbv zeta. unfold binary_round.
  pose proof (shl_align_spec mx ex) as H. cbv zeta in H.
  set (E := fexp (Z.pos (digits2_pos mx) + ex)) in *.
  intros HE Hmax.
  destruct (shl_align mx ex E) as [mz ez].
  destruct H as [Hez [Hmz _]].
  assert (Hez' : ez = E) by lia. clear Hez. subst ez.
  assert (Hp : 0 < 2 ^ (ex - E)) by (apply Z.pow_pos_nonneg; lia).
  assert (Hc : fexp (Zdigits2 (Z.pos mz) + E) - E = 0).
  { rewrite Hmz, Zdigits2_mul_pow2 by lia. cbn [Zdigits2].
    replace (Z.pos (digits2_pos mx) + (ex - E) + E)
      with (Z.pos (digits2_pos mx) + ex) by lia.
    subst E. lia. }
  unfold binary_round_aux, shr_fexp. rewrite Hc.
  cbn [SpecFloat.shr shr_record_of_loc shr_m loc_of_shr_record
         round_nearest_even].
  rewrite Hc. cbn [SpecFloat.shr shr_m].
  destruct (Z.leb_spec E (emax - prec)) as [_ | Hgt]; [|lia].
  f_equal. rewrite <- Hmz. reflexivity.
Qed.

End RoundingValid.

(** *** Integers as Numbers *)

(** An integer below [2 ^ 53] in magnitude is a Number exactly. *)
Lemma truncate_Z2num (z : Z) : - 2 ^ 53 < z < 2 ^ 53 -> truncate (Z2num z) = z.
Proof.
  intros Hz. unfold Z2num, binary_normalize.
  assert (Hexact : forall s p,
             Z.pos p < 2 ^ 53 ->
             truncate (binary_round 53 1024 s p 0)
             = if s then - Z.pos p else Z.pos p).
  { intros s p Hp.
    assert (Hd : Z.pos (digits2_pos p) <= 53).
    { change (Z.pos (digits2_pos p)) with (Zdigits2 (Z.pos p)).
      apply Zdigits2_small; lia. }
    assert (Hd0 : 0 < Z.pos (digits2_pos p)) by lia.
    assert (HE : fexp 53 1024 (Z.pos (digits2_pos p) + 0)
                 = Z.pos (digits2_pos p) - 53).
    { unfold fexp, emin. lia. }
    rewrite binary_round_exact; rewrite HE; try lia.
    set (k := 53 - Z.pos (digits2_pos p)).
    replace (0 - (Z.pos (digits2_pos p) - 53)) with k by lia.
    replace (Z.pos (digits2_pos p) - 53) with (- k) by lia.
    assert (Hk : 0 <= k) by lia.
    assert (Hpow : 0 < 2 ^ k) by (apply Z.pow_pos_nonneg; lia).
    cbn [truncate]. rewrite Z2Pos.id by lia.
    destruct (Z.leb_spec 0 (- k)) as [Hk0 | Hk0].
    - assert (k = 0) by lia. subst k. replace (- 0) with 0 by lia.
      rewrite H. change (2 ^ 0) with 1. now rewrite !Z.mul_1_r.
    - rewrite Z.opp_involutive, Z.div_mul by lia. reflexivity. }
  destruct z as [|p|p]; [reflexivity | |].
  - apply (Hexact false). lia.
  - apply (Hexact true). lia.
Qed.

(** Every signed 32-bit integer survives [setInt32]. *)
Lemma ToInt32_Z2num (z : Z) : ToInt32 (truncate (Z2num (ToInt32 z))) = ToInt32 z.
Proof.
  pose proof (ToInt32_range z) as Hr.
  change (2 ^ 31) with 2147483648 in Hr.
  rewrite truncate_Z2num
    by (change (2 ^ 53) with 9007199254740992; lia).
  apply ToInt32_small. change (2 ^ 31) with 2147483648. lia.
Qed.

(** *** The binary32 encoding *)

Lemma toFloat32_valid (x : number) : valid_binary 24 128 (toFloat32 x) = true.
Proof.
  destruct x as [s|s| |s m e]; try reflexivity.
  apply binary_round_valid. lia.
Qed.

(** The floats of the format are the subnormals, at the least exponent,
    and the normals, with 24 digits. *)
Lemma bounded32_cases (m : positive) (e : Z) :
  bounded 24 128 m e = true ->
  (Z.pos m < 2 ^ 23 /\ e = - 149)
  \/ (2 ^ 23 <= Z.pos m < 2 ^ 24 /\ - 149 <= e <= 104).
Proof.
  unfold bounded, canonical_mantissa. intros H.
  apply andb_prop in H. destruct H as [Hc He].
  apply Z.eqb_eq in Hc. apply Z.leb_le in He.
  destruct (Zdigits2_bounds (Z.pos m) ltac:(lia)) as [Hd [Hlo Hhi]].
  cbn [Zdigits2] in *. set (d := Z.pos (digits2_pos m)) in *.
  unfold fexp, emin in Hc.
  destruct (Z.le_gt_cases 24 d) as [Hge | Hlt].
  - right. assert (d = 24) by lia.
    replace (d - 1) with 23 in Hlo by lia. replace d with 24 in Hhi by lia.
    lia.
  - left. split; [|lia].
    assert (2 ^ d <= 2 ^ 23) by (apply Z.pow_le_mono_r; lia). lia.
Qed.

Lemma sign_bit_cases (s : bool) : sign_bit s = 0 \/ sign_bit s = 2147483648.
Proof. destruct s; [right | left]; reflexivity. Qed.

Lemma sign_bit_testbit (s : bool) (r : Z) :
  0 <= r < 2147483648 -> Z.testbit (sign_bit s + r) 31 = s.
Proof.
  intros Hr. rewrite Z.testbit_odd, Z.shiftr_div_pow2 by lia.
  change (2 ^ 31) with 2147483648.
  destruct s.
  - change (sign_bit true) with 2147483648.
    replace ((2147483648 + r) / 2147483648) with 1
      by (Z.div_mod_to_equations; lia). reflexivity.
  - change (sign_bit false) with 0.
    replace ((0 + r) / 2147483648) with 0
      by (Z.div_mod_to_equations; lia). reflexivity.
Qed.

Lemma float32_bits_range (f : spec_float) :
  valid_binary 24 128 f = true -> 0 <= float32_bits f < 2 ^ 32.
Proof.
  change (2 ^ 32) with 4294967296.
  destruct f as [s|s| |s m e]; cbn [valid_binary float32_bits]; intros Hv.
  - destruct (sign_bit_cases s); lia.
  - change 0x7F800000 with 2139095040. destruct (sign_bit_cases s); lia.
  - change 0x7FC00000 with 2143289344. lia.
  - apply bounded32_cases in Hv.
    change (2 ^ 23) with 8388608 in *. change (2 ^ 24) with 16777216 in *.
    pose proof (sign_bit_cases s) as Hs.
    destruct (Z.ltb_spec (Z.pos m) 8388608); lia.
Qed.

(** Reading back the pattern of a binary32 value gives the value. *)
Lemma float32_of_bits_bits (f : spec_float) :
  valid_binary 24 128 f = true -> float32_of_bits (float32_bits f) = f.
Proof.
  destruct f as [s|s| |s m e]; cbn [valid_binary float32_bits]; intros Hv.
  - now destruct s.
  - now destruct s.
  - reflexivity.
  - apply bounded32_cases in Hv. unfold float32_of_bits.
    change (2 ^ 23) with 8388608 in *. change (2 ^ 24) with 16777216 in *.
    change (2 ^ 8) with 256.
    pose proof (sign_bit_cases s) as Hs.
    destruct (Z.ltb_spec (Z.pos m) 8388608) as [Hsub | Hnorm].
    + assert (e = - 149) by lia. subst e.
      rewrite sign_bit_testbit by lia.
      replace (((sign_bit s + Z.pos m) / 8388608) mod 256) with 0
        by (Z.div_mod_to_equations; lia).
      replace ((sign_bit s + Z.pos m) mod 8388608) with (Z.pos m)
        by (Z.div_mod_to_equations; lia).
      reflexivity.
    + assert (He : - 149 <= e <= 104) by lia.
      assert (Hm : Z.pos m < 16777216) by lia.
      rewrite <- Z.add_assoc.
      rewrite sign_bit_testbit by lia.
      replace (((sign_bit s + ((e + 149) * 8388608 + Z.pos m)) / 8388608)
                 mod 256) with (e + 150)
        by (Z.div_mod_to_equations; lia).
      replace ((sign_bit s + ((e + 149) * 8388608 + Z.pos m)) mod 8388608)
        with (Z.pos m - 8388608)
        by (Z.div_mod_to_equations; lia).
      destruct (Z.eqb_spec (e + 150) 0) as [|_]; [lia|].
      destruct (Z.eqb_spec (e + 150) 255) as [|_]; [lia|].
      replace (Z.pos m - 8388608 + 8388608) with (Z.pos m) by lia.
      replace (e + 150 - 150) with e by lia.
      reflexivity.
Qed.

(** *** Big-endian bytes *)

Lemma be_value_bytes_4 (w : Z) :
  0 <= w < 2 ^ 32 -> be_value (be_bytes 4 w) = w.
Proof.
  change (2 ^ 32) with 4294967296. intros Hw.
  unfold be_value, be_bytes, fold_left.
  change (256 ^ Z.of_nat 3) with 16777216.
  change (256 ^ Z.of_nat 2) with 65536.
  change (256 ^ Z.of_nat 1) with 256.
  change (256 ^ Z.of_nat 0) with 1.
  Z.div_mod_to_equations; lia.
Qed.

Lemma be_value_bytes_2 (w : Z) :
  0 <= w < 2 ^ 16 -> be_value (be_bytes 2 w) = w.
Proof.
  change (2 ^ 16) with 65536. intros Hw.
  unfold be_value, be_bytes, fold_left.
  change (256 ^ Z.of_nat 1) with 256.
  change (256 ^ Z.of_nat 0) with 1.
  Z.div_mod_to_equations; lia.
Qed.

Lemma be_bytes_range (n : nat) (w : Z) :
  Forall (fun b => 0 <= b < 256) (be_bytes n w).
Proof.
  induction n as [|n IH]; cbn [be_bytes]; constructor; [|exact IH].
  apply Z.mod_pos_bound. lia.
Qed.

(** *** Building a payload *)

Lemma ToInt32_ToUint32 (z : Z) : ToInt32 (ToUint32 z) = ToInt32 z.
Proof.
  unfold ToInt32, ToUint32. now rewrite Z.mod_mod by (cbv; congruence).
Qed.

Lemma ToInt32_idem (z : Z) : ToInt32 (ToInt32 z) = ToInt32 z.
Proof. apply ToInt32_small, ToInt32_range. Qed.

Lemma value_word_range (value : number) (isFloat : bool) :
  0 <= value_word value isFloat < 2 ^ 32.
Proof.
  unfold value_word. destruct isFloat.
  - apply float32_bits_range, toFloat32_valid.
  - unfold ToUint32. apply Z.mod_pos_bound. reflexivity.
Qed.

(** The payload in closed form. *)
Lemma buildDataPayload_eq (registerAddr : Z) (value : number) (isFloat : bool) :
  buildDataPayload registerAddr value isFloat
  = Ok (Uint8Array.of_buffer
          (0 :: 0 :: be_bytes 2 (ToUint16 registerAddr)
             ++ be_bytes 4 (value_word value isFloat))).
Proof. unfold buildDataPayload, value_word. now destruct isFloat. Qed.

(** C5. For a 16-bit register address, [buildDataPayload] returns eight
    bytes: 00 00, the address in two big-endian bytes, and in four
    big-endian bytes the binary32 pattern of the value when [isFloat] is
    set, else the two's complement of its signed 32-bit integer. *)
Theorem C5_payload_layout (registerAddr : Z) (value : number) (isFloat : bool) :
  0 <= registerAddr <= 0xFFFF ->
  exists b2 b3 b4 b5 b6 b7,
    buildDataPayload registerAddr value isFloat
    = Ok (Uint8Array.of_buffer [0x00; 0x00; b2; b3; b4; b5; b6; b7])
    /\ Forall (fun b => 0 <= b < 256) [b2; b3; b4; b5; b6; b7]
    /\ b2 * 256 + b3 = registerAddr
    /\ ((b4 * 256 + b5) * 256 + b6) * 256 + b7
       = (if isFloat then float32_bits (toFloat32 value)
          else ToUint32 (ToInt32 (truncate value)))
    /\ (if isFloat
        then float32_of_bits (be_value [b4; b5; b6; b7]) = toFloat32 value
        else ToInt32 (be_value [b4; b5; b6; b7]) = ToInt32 (truncate value)).
Proof.
  intros Hreg. rewrite buildDataPayload_eq.
  pose proof (value_word_range value isFloat) as Hw.
  set (w := value_word value isFloat) in *.
  assert (Hr : ToUint16 registerAddr = registerAddr).
  { unfold ToUint16. apply Z.mod_small. change (2 ^ 16) with 65536. lia. }
  rewrite Hr. cbn [be_bytes app].
  do 6 eexists. split; [reflexivity|].
  split; [|split; [|split]].
  - repeat (apply Forall_cons; [apply Z.mod_pos_bound; lia|]).
    apply Forall_nil.
  - change (be_value (be_bytes 2 registerAddr) = registerAddr).
    apply be_value_bytes_2. change (2 ^ 16) with 65536. lia.
  - change (be_value (be_bytes 4 w)
            = (if isFloat then float32_bits (toFloat32 value)
               else ToUint32 (ToInt32 (truncate value)))).
    rewrite be_value_bytes_4 by assumption. reflexivity.
  - change (if isFloat
            then float32_of_bits (be_value (be_bytes 4 w)) = toFloat32 value
            else ToInt32 (be_value (be_bytes 4 w)) = ToInt32 (truncate value)).
    rewrite be_value_bytes_4 by assumption. subst w. unfold value_word.
    destruct isFloat.
    + apply float32_of_bits_bits, toFloat32_valid.
    + now rewrite ToInt32_ToUint32, ToInt32_idem.
Qed.

Lemma C5_payload_layout_witness :
  exists b2 b3 b4 b5 b6 b7,
    buildDataPayload 0x0410 (Z2num 700) true
    = Ok (Uint8Array.of_buffer [0x00; 0x00; b2; b3; b4; b5; b6; b7])
    /\ Forall (fun b => 0 <= b < 256) [b2; b3; b4; b5; b6; b7]
    /\ b2 * 256 + b3 = 0x0410
    /\ ((b4 * 256 + b5) * 256 + b6) * 256 + b7
       = float32_bits (toFloat32 (Z2num 700))
    /\ float32_of_bits (be_value [b4; b5; b6; b7]) = toFloat32 (Z2num 700).
Proof. apply (C5_payload_layout 0x0410 (Z2num 700) true). lia. Defined.

(** The payloads of the two wire kinds for 700 and for -2. *)
Example buildDataPayload_examples :
  buildDataPayload 0x0410 (Z2num 700) true
  = Ok (Uint8Array.of_buffer
          [0x00; 0x00; 0x04; 0x10; 0x44; 0x2F; 0x00; 0x00])
  /\ buildDataPayload 0x0400 (Z2num (- 2)) false
     = Ok (Uint8Array.of_buffer
             [0x00; 0x00; 0x04; 0x00; 0xFF; 0xFF; 0xFF; 0xFE]).
Proof. split; vm_compute; reflexivity. Qed.

(** *** Payload round trip *)

Lemma lookup_In {V : Type} (r : Record_number V) (k : Z) (v : V) :
  lookup r k = Some v -> In (k, v) r.
Proof.
  induction r as [|[k' v'] r IH]; cbn [lookup]; [discriminate|].
  destruct (Z.eqb_spec k' k) as [-> | _].
  - intros [= ->]. now left.
  - intros H. right. now apply IH.
Qed.

(** Every key of the register table is a 16-bit address and is the
    address of its definition. *)
Lemma REGISTERS_entries :
  Forall (fun entry => 0 <= fst entry <= 0xFFFF
                       /\ address (snd entry) = fst entry) REGISTERS.
Proof.
  unfold REGISTERS.
  repeat (apply Forall_cons; [split; [cbn [fst]; lia | reflexivity]|]).
  apply Forall_nil.
Qed.

Lemma REGISTERS_address (reg : Z) (def : RegisterDefinition) :
  lookup REGISTERS reg = Some def ->
  0 <= reg <= 0xFFFF /\ address def = reg.
Proof.
  intros H. apply lookup_In in H.
  pose proof REGISTERS_entries as HF. rewrite Forall_forall in HF.
  exact (HF _ H).
Qed.

Lemma alarm_text_ToInt32 (w : Z) : alarm_text (ToInt32 w) = alarm_text w.
Proof. unfold alarm_text. now rewrite set_bits_ToInt32. Qed.

(** Decoding what was built: the register comes back, and bytes 4 to 7
    spell the word that was stored. *)
Lemma decode_built_payload (id reg : Z) (value : number) (isFloat : bool) :
  0 <= reg <= 0xFFFF ->
  exists payload f,
    buildDataPayload reg value isFloat = Ok payload
    /\ decodeFrame id payload = Ok f
    /\ register f = reg
    /\ decodedValue f
       = decoded_of_word REGISTERS reg (value_word value isFloat).
Proof.
  intros Hreg. rewrite buildDataPayload_eq.
  pose proof (value_word_range value isFloat) as Hw.
  set (w := value_word value isFloat) in *.
  assert (Hr : ToUint16 reg = reg).
  { unfold ToUint16. apply Z.mod_small. change (2 ^ 16) with 65536. lia. }
  rewrite Hr. cbn [be_bytes app].
  eexists. eexists. split; [reflexivity|].
  rewrite decodeFrame_ok. split; [reflexivity|].
  cbn [register decodedValue].
  change ((reg / 256 ^ Z.of_nat 1) mod 256 * 256
          + (reg / 256 ^ Z.of_nat 0) mod 256)
    with (be_value (be_bytes 2 reg)).
  change [(w / 256 ^ Z.of_nat 3) mod 256; (w / 256 ^ Z.of_nat 2) mod 256;
          (w / 256 ^ Z.of_nat 1) mod 256; (w / 256 ^ Z.of_nat 0) mod 256]
    with (be_bytes 4 w).
  rewrite be_value_bytes_2 by (change (2 ^ 16) with 65536; lia).
  rewrite be_value_bytes_4 by assumption.
  split; reflexivity.
Qed.

(** What the stored word of a value decodes to for a register of the
    table, when the wire kind is that of the register. *)
Lemma decoded_of_value_word (reg : Z) (def : RegisterDefinition)
    (value : number) :
  lookup REGISTERS reg = Some def ->
  decoded_of_word REGISTERS reg (value_word value (is_float_kind (type def)))
  = roundtrip_value def value.
Proof.
  intros Hreg. unfold decoded_of_word, roundtrip_value, value_word.
  rewrite Hreg. destruct (is_float_kind (type def)).
  - now rewrite float32_of_bits_bits by apply toFloat32_valid.
  - rewrite ToInt32_ToUint32, ToInt32_idem.
    set (val := ToInt32 (truncate value)).
    destruct (option_label def val) as [label|] eqn:Hopt.
    + pose proof (REGISTERS_labels_nonempty _ _ _ _ Hreg Hopt) as Hne.
      cbn [truthy]. destruct (String.eqb_spec label ""); [contradiction|].
      reflexivity.
    + cbn [truthy]. destruct (address def =? 0x0100); [|reflexivity].
      subst val. now rewrite alarm_branch_text, <- alarm_text_ToInt32.
Qed.

(** C2, refuted as stated: the payload built for the Status register and
    the integer 7 decodes to a labelled text, not to the number 7. *)
Lemma C2_status_7_is_text :
  exists def payload f,
    lookup REGISTERS 0x0101 = Some def
    /\ is_float_kind (type def) = false
    /\ buildDataPayload 0x0101 (Z2num 7) false = Ok payload
    /\ decodeFrame 0x1581A002 payload = Ok f
    /\ register f = 0x0101
    /\ decodedValue f = Str "7 (Running)"
    /\ decodedValue f <> Num (Z2num 7).
Proof.
  do 3 eexists.
  repeat (split; [vm_compute; reflexivity|]).
  vm_compute. discriminate.
Qed.

(** C2, amended. For every register of the table, every value and every
    identifier, the payload built with either wire kind decodes to a frame
    with the same register. With the wire kind of the register, a float
    register decodes to the value at binary32 precision rounded to two
    decimals; an integer register recovers the signed 32-bit integer of
    the value exactly and shows it with its option label when the register
    defines one, as alarm text for register 0x0100, and as the number
    itself otherwise. Every signed 32-bit integer is stored exactly. *)
Theorem C2_payload_roundtrip (id reg : Z) (def : RegisterDefinition)
    (value : number) :
  lookup REGISTERS reg = Some def ->
  (forall isFloat, exists payload f,
        buildDataPayload reg value isFloat = Ok payload
        /\ decodeFrame id payload = Ok f
        /\ register f = reg)
  /\ (exists payload f,
         buildDataPayload reg value (is_float_kind (type def)) = Ok payload
         /\ decodeFrame id payload = Ok f
         /\ decodedValue f = roundtrip_value def value)
  /\ (forall z, ToInt32 (truncate (Z2num (ToInt32 z))) = ToInt32 z).
Proof.
  intros Hreg. destruct (REGISTERS_address _ _ Hreg) as [Hrange _].
  split; [|split].
  - intros isFloat.
    destruct (decode_built_payload id reg value isFloat Hrange)
      as (payload & f & Hb & Hd & Hr & _).
    now exists payload, f.
  - destruct (decode_built_payload id reg value (is_float_kind (type def))
                Hrange) as (payload & f & Hb & Hd & _ & Hv).
    exists payload, f. repeat split; try assumption.
    rewrite Hv. now apply decoded_of_value_word.
  - apply ToInt32_Z2num.
Qed.

Lemma C2_payload_roundtrip_witness :
  (forall isFloat, exists payload f,
        buildDataPayload 0x0110 (Z2num 1) isFloat = Ok payload
        /\ decodeFrame 0x1581A002 payload = Ok f
        /\ register f = 0x0110)
  /\ (exists payload f,
         buildDataPayload 0x0110 (Z2num 1) false = Ok payload
         /\ decodeFrame 0x1581A002 payload = Ok f
         /\ decodedValue f = Num (Z2num 1))
  /\ (forall z, ToInt32 (truncate (Z2num (ToInt32 z))) = ToInt32 z).
Proof.
  apply (C2_payload_roundtrip 0x1581A002 0x0110
           {| address := 0x0110; name := "ON/OFF Status";
              type := READ_ONLY_INT; unit := None;
              description := "0=Start, 1=Stop"; options := None |}
           (Z2num 1)).
  reflexivity.
Defined.

(** The round trip on the float register "Set Output Voltage": 700 comes
    back as 700, and 0.125 as 0.13. *)
Example roundtrip_float_examples :
  roundtrip_value
    {| address := 0x0410; name := "Set Output Voltage";
       type := WRITE_ONLY_FLOAT; unit := Some "V"%string;
       description := "Target voltage setting"; options := None |}
    (Z2num 700)
  = Num (Z2num 700)
  /\ roundtrip_value
       {| address := 0x0410; name := "Set Output Voltage";
          type := WRITE_ONLY_FLOAT; unit := Some "V"%string;
          description := "Target voltage setting"; options := None |}
       (SFdiv 53 1024 (Z2num 1) (Z2num 8))
     = Num (SFdiv 53 1024 (Z2num 13) (Z2num 100)).
Proof. split; vm_compute; reflexivity. Qed.

(** ** Further properties of the service and of its callers *)

(** *** Digits of [toString] *)

Lemma digits_string_app (l1 l2 : list Z) :
  digits_string (l1 ++ l2) = (digits_string l1 ++ digits_string l2)%string.
Proof. induction l1 as [|d l1 IH]; cbn; [reflexivity | now rewrite IH]. Qed.

Lemma string_app_assoc (a b c : string) :
  ((a ++ b) ++ c = a ++ (b ++ c))%string.
Proof. induction a as [|x a IH]; cbn; [reflexivity | now rewrite IH]. Qed.

Lemma digits_acc_string (fuel : nat) (radix : Z) :
  forall (n : Z) (acc : string),
    digits_acc fuel radix n acc
    = (digits_string (digits_list fuel radix n) ++ acc)%string.
Proof.
  induction fuel as [|fuel IH]; intros n acc; cbn [digits_acc digits_list].
  - reflexivity.
  - destruct (n / radix =? 0); [reflexivity|].
    rewrite IH, digits_string_app, string_app_assoc. reflexivity.
Qed.

Lemma toStringRadix_digits (radix n : Z) :
  0 <= n ->
  toStringRadix radix n
  = digits_string (digits_list (S (Z.to_nat (Z.log2 n))) radix n).
Proof.
  intros Hn. unfold toStringRadix.
  destruct (Z.ltb_spec n 0); [lia|].
  rewrite digits_acc_string.
  generalize (digits_string (digits_list (S (Z.to_nat (Z.log2 n))) radix n)).
  intros s. induction s as [|c s IH]; cbn; [reflexivity | now rewrite IH].
Qed.

Section DigitsList.
Variable radix : Z.
Hypothesis Hradix : 2 <= radix.

Lemma digits_value_app (l : list Z) (d : Z) :
digits_value radix (l ++ [d]) = digits_value radix l * radix + d.
Proof. unfold digits_value. now rewrite fold_left_app. Qed.

Lemma digits_list_spec (fuel : nat) :
forall n, (1 <= fuel)%nat -> 0 <= n < 2 ^ Z.of_nat fuel ->
     Forall (fun d => 0 <= d < radix) (digits_list fuel radix n)
     /\ digits_value radix (digits_list fuel radix n) = n
     /\ digits_list fuel radix n <> [].
Proof.
induction fuel as [|fuel IH]; intros n Hfuel Hn; [lia|].
cbn [digits_list].
assert (Hmod : 0 <= n mod radix < radix) by (apply Z.mod_pos_bound; lia).
destruct (Z.eqb_spec (n / radix) 0) as [Hq | Hq].
- split; [repeat constructor; lia|]. split; [|discriminate].
  unfold digits_value. cbn. 
  rewrite (Z.div_mod n radix) at 2 by lia. rewrite Hq. lia.
- assert (Hdiv : 0 < n / radix).
  { assert (0 <= n / radix) by (apply Z.div_pos; lia). lia. }
  assert (Hlt : n / radix < 2 ^ Z.of_nat fuel).
  { apply Z.div_lt_upper_bound; [lia|].
    rewrite Nat2Z.inj_succ, Z.pow_succ_r in Hn by lia.
    assert (0 < 2 ^ Z.of_nat fuel) by (apply Z.pow_pos_nonneg; lia). nia. }
  assert (Hf : (1 <= fuel)%nat).
  { destruct fuel; [|lia]. change (2 ^ Z.of_nat 0) with 1 in Hlt. lia. }
  destruct (IH (n / radix) Hf ltac:(lia)) as [Hall [Hval Hne]].
  split; [|split].
  + apply Forall_app. split; [assumption|]. repeat constructor; lia.
  + rewrite digits_value_app, Hval.
    rewrite (Z.div_mod n radix) at 3 by lia. lia.
  + intros H. apply app_eq_nil in H. destruct H as [_ H]. discriminate.
Qed.

(** A number below [radix ^ k] has at most [k] digits. *)
Lemma digits_list_length (fuel : nat) :
forall n (k : nat), (1 <= k)%nat -> 0 <= n < radix ^ Z.of_nat k ->
     (List.length (digits_list fuel radix n) <= k)%nat.
Proof.
induction fuel as [|fuel IH]; intros n k Hk Hn; cbn [digits_list].
- cbn. lia.
- destruct (Z.eqb_spec (n / radix) 0) as [Hq | Hq]; [cbn; lia|].
  rewrite length_app. cbn [List.length].
  destruct k as [|k]; [lia|].
  destruct k as [|k].
  + change (radix ^ Z.of_nat 1) with (radix ^ 1) in Hn.
    rewrite Z.pow_1_r in Hn. exfalso. apply Hq. apply Z.div_small. lia.
  + assert ((List.length (digits_list fuel radix (n / radix)) <= S k)%nat).
    { apply IH; [lia|]. split; [apply Z.div_pos; lia|].
      apply Z.div_lt_upper_bound; [lia|].
      rewrite (Nat2Z.inj_succ (S k)), Z.pow_succ_r in Hn by lia. lia. }
    lia.
Qed.

End DigitsList.

Lemma toStringRadix_spec (radix n : Z) :
  2 <= radix -> 0 <= n ->
  exists ds,
    toStringRadix radix n = digits_string ds
    /\ Forall (fun d => 0 <= d < radix) ds
    /\ digits_value radix ds = n
    /\ ds <> []
    /\ forall k : nat, (1 <= k)%nat -> n < radix ^ Z.of_nat k ->
                       (List.length ds <= k)%nat.
Proof.
  intros Hr Hn. rewrite toStringRadix_digits by assumption.
  set (fuel := S (Z.to_nat (Z.log2 n))).
  assert (Hfuel : 0 <= n < 2 ^ Z.of_nat fuel).
  { split; [assumption|]. subst fuel.
    destruct (Z.eq_dec n 0) as [-> | Hnz]; [reflexivity|].
    rewrite Nat2Z.inj_succ, Z2Nat.id by apply Z.log2_nonneg.
    apply Z.log2_spec. lia. }
  destruct (digits_list_spec radix Hr fuel n ltac:(subst fuel; lia) Hfuel)
    as [Hall [Hval Hne]].
  exists (digits_list fuel radix n). repeat split; try assumption.
  intros k Hk Hlt. apply digits_list_length; [assumption | assumption | lia].
Qed.

Lemma text_of_string_app (a b : string) :
  text_of_string (a ++ b) = text_of_string a ++ text_of_string b.
Proof.
  unfold text_of_string. induction a as [|c a IH]; cbn; [reflexivity|].
  now rewrite IH.
Qed.

Lemma toUpperCase_app (a b : string) :
  toUpperCase (a ++ b) = (toUpperCase a ++ toUpperCase b)%string.
Proof. induction a as [|c a IH]; cbn; [reflexivity | now rewrite IH]. Qed.

Lemma length_string_app (a b : string) :
  String.length (a ++ b) = (String.length a + String.length b)%nat.
Proof. induction a as [|c a IH]; cbn; [reflexivity | now rewrite IH]. Qed.

Lemma length_toUpperCase (s : string) :
  String.length (toUpperCase s) = String.length s.
Proof. induction s as [|c s IH]; cbn; [reflexivity | now rewrite IH]. Qed.

Lemma length_digits_string (ds : list Z) :
  String.length (digits_string ds) = List.length ds.
Proof. induction ds as [|d ds IH]; cbn; [reflexivity | now rewrite IH]. Qed.

Lemma length_text_of_string (s : string) :
  List.length (text_of_string s) = String.length s.
Proof.
  unfold text_of_string. induction s as [|c s IH]; cbn; [reflexivity|].
  now rewrite IH.
Qed.

Lemma digits_string_repeat_0 (j : nat) :
  repeat_string j "0" = digits_string (repeat 0 j).
Proof. induction j as [|j IH]; cbn; [reflexivity | now rewrite IH]. Qed.

Lemma length_repeat_string_0 (j : nat) : String.length (repeat_string j "0") = j.
Proof. induction j as [|j IH]; cbn; [reflexivity | now rewrite IH]. Qed.

(** Padding a digit text pads the digit list with zeros. *)
Lemma padStart_digits (k : nat) (ds : list Z) :
  padStart k "0" (digits_string ds)
  = digits_string (repeat 0 (k - List.length ds) ++ ds).
Proof.
  unfold padStart.
  now rewrite length_digits_string, digits_string_repeat_0, digits_string_app.
Qed.

Lemma text_upper_digits (ds : list Z) :
  text_of_string (toUpperCase (digits_string ds)) = map upper_code ds.
Proof.
  unfold text_of_string. induction ds as [|d ds IH]; cbn; [reflexivity|].
  now rewrite IH.
Qed.

Lemma text_lower_digits (ds : list Z) :
  text_of_string (digits_string ds) = map lower_code ds.
Proof.
  unfold text_of_string. induction ds as [|d ds IH]; cbn; [reflexivity|].
  now rewrite IH.
Qed.

Lemma digits_value_zeros (radix : Z) (j : nat) (ds : list Z) :
  digits_value radix (repeat 0 j ++ ds) = digits_value radix ds.
Proof.
  unfold digits_value. rewrite fold_left_app. f_equal.
  induction j as [|j IH]; cbn; [reflexivity|]. exact IH.
Qed.

Lemma hex_digit_cases (d : Z) :
  0 <= d < 16 -> In d (map Z.of_nat (seq 0 16)).
Proof.
  intros Hd. apply in_map_iff. exists (Z.to_nat d). split; [lia|].
  apply in_seq. lia.
Qed.

Lemma upper_code_plain (d : Z) : 0 <= d < 16 -> plain_digit (upper_code d) d.
Proof.
  intros Hd. pose proof (hex_digit_cases d Hd) as H. cbn in H.
  repeat (destruct H as [<- | H]; [vm_compute; repeat split; reflexivity|]).
  contradiction.
Qed.

Lemma lower_code_plain (d : Z) : 0 <= d < 16 -> plain_digit (lower_code d) d.
Proof.
  intros Hd. pose proof (hex_digit_cases d Hd) as H. cbn in H.
  repeat (destruct H as [<- | H]; [vm_compute; repeat split; reflexivity|]).
  contradiction.
Qed.

Section HexText.
Variable code : Z -> N.
Hypothesis code_plain : forall d, 0 <= d < 16 -> plain_digit (code d) d.

Lemma parse_digits_hex (ds : list Z) :
Forall (fun d => 0 <= d < 16) ds ->
forall acc rest,
  parse_digits 16 (map code ds ++ rest) acc
  = parse_digits 16 rest
      (match ds with
       | [] => acc
       | _ => Some (fold_left (fun a d => a * 16 + d) ds
                      (match acc with Some a => a | None => 0 end))
       end).
Proof.
induction 1 as [|d ds Hd _ IH]; intros acc rest; [reflexivity|].
cbn [map app parse_digits].
destruct (code_plain d Hd) as [Hv _]. rewrite Hv.
destruct (Z.ltb_spec d 16) as [_|]; [|lia].
rewrite IH. destruct ds; reflexivity.
Qed.

(** [parseInt] reads a plain hex numeral as its value. *)
Lemma parseInt_hex (ds : list Z) :
Forall (fun d => 0 <= d < 16) ds -> ds <> [] ->
parseInt (map code ds) 16 = Some (digits_value 16 ds).
Proof.
intros Hds Hne. destruct ds as [|d ds]; [contradiction|].
pose proof (Forall_inv Hds) as Hd.
destruct (code_plain d Hd) as (_ & Hsp & _ & _ & _ & Hminus & Hplus).
unfold parseInt. cbn [map skip_spaces]. rewrite Hsp, Hminus, Hplus.
change (16 =? 16) with true. cbv iota.
assert (Hparse :
          parse_digits 16 (map code (d :: ds)) None
          = Some (digits_value 16 (d :: ds))).
{ rewrite <- (app_nil_r (map code (d :: ds))).
  now rewrite (parse_digits_hex (d :: ds) Hds). }
destruct ds as [|d' ds'].
- cbn [map] in *. rewrite Hparse. f_equal. lia.
- cbn [map] in *.
  pose proof (Forall_inv (Forall_inv_tail Hds)) as Hd'.
  destruct (code_plain d' Hd') as (_ & _ & _ & Hx & HX & _).
  rewrite Hx, HX, andb_false_r. rewrite Hparse. f_equal. lia.
Qed.

Lemma hex_text_no_space (ds : list Z) :
Forall (fun d => 0 <= d < 16) ds -> remove_spaces (map code ds) = map code ds.
Proof.
induction 1 as [|d ds Hd _ IH]; [reflexivity|].
unfold remove_spaces in *. cbn [map filter].
destruct (code_plain d Hd) as (_ & Hsp & _). rewrite Hsp. cbn [negb].
now rewrite IH.
Qed.

End HexText.

(** *** Cleaning and chunking *)

Lemma Forall_firstn_of {A : Type} (P : A -> Prop) (n : nat) (l : list A) :
  Forall P l -> Forall P (firstn n l).
Proof.
  intros H. rewrite <- (firstn_skipn n l) in H.
  now apply Forall_app in H.
Qed.

Lemma Forall_skipn_of {A : Type} (P : A -> Prop) (n : nat) (l : list A) :
  Forall P l -> Forall P (skipn n l).
Proof.
  intros H. rewrite <- (firstn_skipn n l) in H.
  now apply Forall_app in H.
Qed.

Lemma remove_spaces_clean (s : text) :
  Forall (fun c => is_space c = false) (remove_spaces s).
Proof.
  apply Forall_forall. intros c Hc. unfold remove_spaces in Hc.
  apply filter_In in Hc. destruct Hc as [_ Hc]. now destruct (is_space c).
Qed.

Lemma remove_0x_step (c c' : N) (rest : text) :
  remove_0x (c :: c' :: rest)
  = if ((c =? 0x30) && (c' =? 0x78))%N then remove_0x rest
    else c :: remove_0x (c' :: rest).
Proof. reflexivity. Qed.

(** [remove_0x] only removes. *)
Lemma remove_0x_keeps (P : N -> Prop) :
  forall (n : nat) (s : text),
    (List.length s <= n)%nat -> Forall P s -> Forall P (remove_0x s).
Proof.
  induction n as [|n IH]; intros s Hlen Hs.
  - destruct s; [constructor | cbn in Hlen; lia].
  - destruct s as [|c [|c' rest']]; try assumption.
    rewrite remove_0x_step. cbn in Hlen.
    pose proof (Forall_inv_tail Hs) as Hs'.
    destruct ((c =? 0x30) && (c' =? 0x78))%N.
    + apply IH; [lia|]. exact (Forall_inv_tail Hs').
    + constructor; [exact (Forall_inv Hs)|].
      apply IH; [cbn; lia | assumption].
Qed.

Lemma remove_0x_no_x (s : text) :
  Forall (fun c => (c =? 0x78)%N = false) s -> remove_0x s = s.
Proof.
  induction 1 as [|c s Hc Hs IH]; [reflexivity|].
  destruct s as [|c' rest']; [reflexivity|].
  rewrite remove_0x_step.
  rewrite (Forall_inv Hs), andb_false_r. now rewrite IH.
Qed.

Lemma space_not_terminator (c : N) :
  is_space c = false -> is_line_terminator c = false.
Proof.
  unfold is_space. intros H. apply orb_false_elim in H. now destruct H.
Qed.

Lemma match_two (a b : N) (s : text) :
  is_line_terminator a = false -> is_line_terminator b = false ->
  match_one_or_two (a :: b :: s) = [a; b] :: match_one_or_two s.
Proof. intros Ha Hb. cbn [match_one_or_two]. now rewrite Ha, Hb. Qed.

(** Sixteen characters without line terminators make eight chunks. *)
Lemma match_sixteen (s : text) :
  List.length s = 16%nat ->
  Forall (fun c => is_line_terminator c = false) s ->
  List.length (match_one_or_two s) = 8%nat
  /\ match_one_or_two s <> [].
Proof.
  intros Hlen Hs.
  do 16 (destruct s as [|? s]; [discriminate Hlen|]).
  destruct s; [|discriminate Hlen].
  repeat match goal with
         | H : Forall _ (_ :: _) |- _ =>
             let Hx := fresh "Hx" in
             pose proof (Forall_inv H) as Hx; cbv beta in Hx;
             apply Forall_inv_tail in H
         end.
  rewrite !match_two by assumption. split; [reflexivity | discriminate].
Qed.

(** *** Hex numerals of fixed width *)

Lemma text_padStart (k : nat) (s : string) :
  text_of_string (padStart k "0" s)
  = repeat 0x30%N (k - String.length s) ++ text_of_string s.
Proof.
  unfold padStart. rewrite text_of_string_app. f_equal.
  generalize (k - String.length s)%nat. intros j.
  induction j as [|j IH]; [reflexivity|].
  cbn [repeat_string repeat]. rewrite text_of_string_app, IH. reflexivity.
Qed.

Lemma toUpperCase_padStart (k : nat) (s : string) :
  toUpperCase (padStart k "0" s) = padStart k "0" (toUpperCase s).
Proof.
  unfold padStart. rewrite toUpperCase_app, length_toUpperCase. f_equal.
  generalize (k - String.length s)%nat. intros j.
  induction j as [|j IH]; [reflexivity|].
  cbn [repeat_string]. rewrite toUpperCase_app, IH. reflexivity.
Qed.

(** The digits of a number below [16 ^ k], padded to [k] digits. *)
Lemma hex_padded (k : nat) (n : Z) :
  (1 <= k)%nat -> 0 <= n < 16 ^ Z.of_nat k ->
  exists ds,
    List.length ds = k
    /\ Forall (fun d => 0 <= d < 16) ds
    /\ digits_value 16 ds = n
    /\ text_of_string (padStart k "0" (toUpperCase (toStringRadix 16 n)))
       = map upper_code ds
    /\ text_of_string (padStart k "0" (toStringRadix 16 n))
       = map lower_code ds.
Proof.
  intros Hk Hn.
  destruct (toStringRadix_spec 16 n ltac:(lia) ltac:(lia))
    as (ds & Hs & Hall & Hval & Hne & Hlen).
  specialize (Hlen k Hk ltac:(lia)).
  exists (repeat 0 (k - List.length ds) ++ ds).
  split; [rewrite length_app, repeat_length; lia|].
  split; [apply Forall_app; split; [|assumption];
          apply Forall_forall; intros d Hd; apply repeat_spec in Hd; lia|].
  split; [now rewrite digits_value_zeros|].
  rewrite !text_padStart, length_toUpperCase, Hs, length_digits_string.
  rewrite text_upper_digits, text_lower_digits, !map_app, !map_repeat.
  split; reflexivity.
Qed.

Lemma byte_digits_range (b : Z) :
  0 <= b < 256 -> Forall (fun d => 0 <= d < 16) (byte_digits b).
Proof.
  intros Hb. unfold byte_digits.
  repeat constructor; Z.div_mod_to_equations; lia.
Qed.

Lemma byte_text (b : Z) :
  0 <= b < 256 ->
  text_of_string (toUpperCase (padStart 2 "0" (toStringRadix 16 b)))
  = map upper_code (byte_digits b).
Proof.
  intros Hb. rewrite toUpperCase_padStart.
  destruct (hex_padded 2 b ltac:(lia) ltac:(change (16 ^ Z.of_nat 2) with 256; lia))
    as (ds & Hlen & Hall & Hval & Hup & _).
  rewrite Hup. f_equal.
  destruct ds as [|d1 [|d2 [|]]]; try discriminate Hlen.
  pose proof (Forall_inv Hall) as H1.
  pose proof (Forall_inv (Forall_inv_tail Hall)) as H2.
  cbv beta in H1, H2. unfold digits_value in Hval. cbn in Hval.
  unfold byte_digits. f_equal; [|f_equal]; Z.div_mod_to_equations; lia.
Qed.

Lemma remove_spaces_app (a b : text) :
  remove_spaces (a ++ b) = remove_spaces a ++ remove_spaces b.
Proof. apply filter_app. Qed.

Lemma join_cons (sep x : string) (y : option string) (rest : list (option string)) :
  join sep (Some x :: y :: rest) = (x ++ sep ++ join sep (y :: rest))%string.
Proof. reflexivity. Qed.

(** The payload transcript, character by character. *)
Lemma payloadHex_text (dataBytes : list Z) :
  Forall (fun b => 0 <= b < 256) dataBytes ->
  remove_spaces (text_of_string (payloadHex dataBytes))
  = map upper_code (flat_map byte_digits dataBytes)
  /\ (dataBytes <> [] ->
      String.length (payloadHex dataBytes)
      = (3 * List.length dataBytes - 1)%nat).
Proof.
  unfold payloadHex.
  induction 1 as [|b rest Hb Hrest IH].
  - split; [reflexivity | intros H; contradiction].
  - destruct IH as [IHtext IHlen].
    pose proof (byte_text b Hb) as Hbt.
    assert (Hblen : String.length
                      (toUpperCase (padStart 2 "0" (toStringRadix 16 b)))
                    = 2%nat).
    { rewrite <- length_text_of_string, Hbt. reflexivity. }
    destruct rest as [|b' rest'].
    + cbn [map join flat_map]. rewrite app_nil_r. split.
      * rewrite Hbt. apply hex_text_no_space;
          [exact upper_code_plain | now apply byte_digits_range].
      * intros _. rewrite Hblen. reflexivity.
    + cbn [map] in *. rewrite join_cons. split.
      * rewrite !text_of_string_app, !remove_spaces_app.
        rewrite IHtext, Hbt.
        rewrite (hex_text_no_space upper_code upper_code_plain)
          by now apply byte_digits_range.
        change (remove_spaces (text_of_string " ")) with (@nil N).
        cbn [flat_map app]. now rewrite map_app.
      * intros _. rewrite !length_string_app, Hblen.
        rewrite IHlen by discriminate. cbn [String.length List.length]. lia.
Qed.

Lemma upper_digits_no_x (ds : list Z) :
  Forall (fun d => 0 <= d < 16) ds ->
  Forall (fun c => (c =? 0x78)%N = false) (map upper_code ds).
Proof.
  intros H. apply Forall_map. eapply Forall_impl; [|exact H].
  intros d Hd. now destruct (upper_code_plain d Hd) as (_ & _ & _ & Hx & _).
Qed.

Lemma flat_byte_digits_range (dataBytes : list Z) :
  Forall (fun b => 0 <= b < 256) dataBytes ->
  Forall (fun d => 0 <= d < 16) (flat_map byte_digits dataBytes).
Proof.
  induction 1 as [|b rest Hb _ IH]; [constructor|].
  cbn [flat_map]. apply Forall_app. split; [now apply byte_digits_range|].
  exact IH.
Qed.

Lemma match_byte_digits (dataBytes : list Z) :
  Forall (fun b => 0 <= b < 256) dataBytes ->
  match_one_or_two (map upper_code (flat_map byte_digits dataBytes))
  = map (fun b => map upper_code (byte_digits b)) dataBytes.
Proof.
  induction 1 as [|b rest Hb _ IH]; [reflexivity|].
  cbn [flat_map byte_digits app map].
  assert (H1 : 0 <= b / 16 < 16) by (Z.div_mod_to_equations; lia).
  assert (H2 : 0 <= b mod 16 < 16) by (Z.div_mod_to_equations; lia).
  destruct (upper_code_plain _ H1) as (_ & _ & Ht1 & _).
  destruct (upper_code_plain _ H2) as (_ & _ & Ht2 & _).
  rewrite match_two by assumption. now rewrite IH.
Qed.

Lemma parse_byte_digits (b : Z) :
  0 <= b < 256 -> parseInt (map upper_code (byte_digits b)) 16 = Some b.
Proof.
  intros Hb.
  rewrite (parseInt_hex upper_code upper_code_plain)
    by (try apply byte_digits_range; try discriminate; assumption).
  f_equal. unfold digits_value, byte_digits. cbn.
  Z.div_mod_to_equations; lia.
Qed.

(** The chunks of a cleaned payload transcript are read as its bytes. *)
Lemma read_payload_chunks (dataBytes : list Z) :
  Forall (fun b => 0 <= b < 256) dataBytes ->
  Uint8Array_from
    (map (fun byte => parseInt byte 16)
       (map (fun b => map upper_code (byte_digits b)) dataBytes))
  = Uint8Array.of_buffer dataBytes.
Proof.
  intros Hbytes. unfold Uint8Array_from. f_equal.
  induction Hbytes as [|b rest Hb _ IH]; [reflexivity|].
  cbn [map]. rewrite parse_byte_digits by assumption.
  rewrite IH. f_equal.
  unfold ToUint8. apply Z.mod_small. change (2 ^ 8) with 256. lia.
Qed.



(** *** [handleDecode] *)

Lemma substring_0_8 (s : text) : substring s 0 8 = firstn 8 (firstn 24 s).
Proof. unfold substring. cbn [Nat.sub skipn]. now rewrite firstn_firstn. Qed.

Lemma substring_8_24 (s : text) : substring s 8 24 = skipn 8 (firstn 24 s).
Proof.
  unfold substring. change (24 - 8)%nat with 16%nat.
  now rewrite skipn_firstn_comm.
Qed.

Lemma cleaned_no_terminator (rawHexInput : text) :
  Forall (fun c => is_line_terminator c = false) (cleaned rawHexInput).
Proof.
  unfold cleaned.
  apply (remove_0x_keeps _ (List.length (remove_spaces rawHexInput)));
    [lia|].
  eapply Forall_impl; [|apply remove_spaces_clean].
  intros c. apply space_not_terminator.
Qed.

Lemma Uint8Array_from_length (numbers : list (option Z)) :
  Uint8Array.length (Uint8Array_from numbers) = List.length numbers.
Proof. apply length_map. Qed.

(** X7. [handleDecode] rejects its input with the "Invalid Length"
    error exactly when fewer than 24 characters remain after removing
    white space and "0x"; otherwise it always sets a decoded frame, which
    is the decoding of a payload of exactly eight bytes, whatever the
    remaining characters are: neither the [TypeError] nor an exception of
    [decodeFrame] can occur. *)
Theorem handleDecode_length_rule (rawHexInput : text) :
  if (List.length (cleaned rawHexInput) <? 24)%nat
  then App.handleDecode rawHexInput
       = App.AlertDecodeError
           (App.CaughtError
              "Invalid Length. Format: ID(8 chars) DATA(16 chars)")
  else exists id dataBytes f,
      List.length dataBytes = 8%nat
      /\ decodeFrame id (Uint8Array.of_buffer dataBytes) = Ok f
      /\ App.handleDecode rawHexInput = App.SetDecodedResult f.
Proof.
  unfold App.handleDecode. fold (cleaned rawHexInput).
  pose proof (cleaned_no_terminator rawHexInput) as Hterm.
  set (clean := cleaned rawHexInput) in *.
  rewrite substring_0_8, substring_8_24.
  assert (H8 : List.length (firstn 8 (firstn 24 clean))
               = Nat.min 8 (List.length clean)).
  { rewrite !length_firstn. lia. }
  assert (H16 : List.length (skipn 8 (firstn 24 clean))
                = (Nat.min 24 (List.length clean) - 8)%nat).
  { now rewrite length_skipn, length_firstn. }
  destruct (Nat.ltb_spec (List.length clean) 24) as [Hshort | Hlong].
  - destruct (Nat.eqb_spec (List.length (firstn 8 (firstn 24 clean))) 8)
      as [E8 | _]; [|reflexivity].
    destruct (Nat.eqb_spec (List.length (skipn 8 (firstn 24 clean))) 16)
      as [E16 | _]; [|reflexivity].
    lia.
  - destruct (Nat.eqb_spec (List.length (firstn 8 (firstn 24 clean))) 8)
      as [_ | N8]; [|lia].
    destruct (Nat.eqb_spec (List.length (skipn 8 (firstn 24 clean))) 16)
      as [E16 | N16]; [|lia].
    cbn [negb orb].
    assert (Hdata : Forall (fun c => is_line_terminator c = false)
                      (skipn 8 (firstn 24 clean)))
      by (apply Forall_skipn_of, Forall_firstn_of; exact Hterm).
    destruct (match_sixteen _ E16 Hdata) as [Hchunks Hne].
    destruct (match_one_or_two (skipn 8 (firstn 24 clean)))
      as [|chunk chunks] eqn:Hm; [contradiction|].
    set (id := match parseInt (firstn 8 (firstn 24 clean)) 16 with
               | Some z => z
               | None => 0
               end).
    unfold Uint8Array_from.
    set (dataBytes := map (fun n => match n with
                                    | Some z => ToUint8 z
                                    | None => 0
                                    end)
                        (map (fun byte => parseInt byte 16) (chunk :: chunks))).
    assert (Hlen : List.length dataBytes = 8%nat).
    { subst dataBytes. now rewrite !length_map. }
    exists id, dataBytes.
    destruct dataBytes as [|b0 [|b1 [|b2 [|b3 [|b4 [|b5 [|b6 [|b7 [|]]]]]]]]];
      try discriminate Hlen.
    rewrite decodeFrame_ok. eexists. repeat split.
Qed.

(** The outcome of [handleDecode] is a function of the first 24 cleaned
    characters. *)
Lemma handleDecode_of_prefix (raw1 raw2 : text) :
  firstn 24 (cleaned raw1) = firstn 24 (cleaned raw2) ->
  App.handleDecode raw1 = App.handleDecode raw2.
Proof.
  intros H. unfold App.handleDecode.
  fold (cleaned raw1). fold (cleaned raw2).
  rewrite !substring_0_8, !substring_8_24. now rewrite H.
Qed.

(** X9. [handleDecode] looks at the first 24 cleaned characters only:
    two inputs that agree on them have the same outcome. *)
Theorem handleDecode_first_24 (raw1 raw2 : text) :
  firstn 24 (cleaned raw1) = firstn 24 (cleaned raw2) ->
  App.handleDecode raw1 = App.handleDecode raw2.
Proof. apply handleDecode_of_prefix. Qed.

Lemma handleDecode_first_24_witness :
  App.handleDecode (text_of_string "1581A002 F0000001442F0000 and more")
  = App.handleDecode (text_of_string "1581A002 F0000001442F0000").
Proof.
  apply (handleDecode_first_24
           (text_of_string "1581A002 F0000001442F0000 and more")
           (text_of_string "1581A002 F0000001442F0000")).
  vm_compute. reflexivity.
Defined.

(** A leading "0x" is removed by the cleaning. *)
Lemma cleaned_0x_prefix (s : string) :
  cleaned (text_of_string ("0x" ++ s)) = cleaned (text_of_string s).
Proof.
  unfold cleaned. rewrite text_of_string_app, remove_spaces_app.
  change (remove_spaces (text_of_string "0x")) with [0x30; 0x78]%N.
  cbn [app]. destruct (remove_spaces (text_of_string s)); reflexivity.
Qed.

(** The decoder reads the transcript of a frame as that frame. *)
Lemma paste_transcript (id : Z) (dataBytes : list Z) :
  0 <= id < 2 ^ 32 ->
  List.length dataBytes = 8%nat ->
  Forall (fun b => 0 <= b < 256) dataBytes ->
  exists f,
    decodeFrame id (Uint8Array.of_buffer dataBytes) = Ok f
    /\ App.handleDecode (text_of_string (transcript id dataBytes))
       = App.SetDecodedResult f
    /\ App.handleDecode (text_of_string ("0x" ++ transcript id dataBytes))
       = App.SetDecodedResult f.
Proof.
  intros Hid Hlen Hbytes.
  rewrite (handleDecode_of_prefix
             (text_of_string ("0x" ++ transcript id dataBytes))
             (text_of_string (transcript id dataBytes)))
    by now rewrite cleaned_0x_prefix.
  cut (exists f,
          decodeFrame id (Uint8Array.of_buffer dataBytes) = Ok f
          /\ App.handleDecode (text_of_string (transcript id dataBytes))
             = App.SetDecodedResult f).
  { intros (f & Hf & Hh). exists f. now repeat split. }
  destruct (hex_padded 8 id ltac:(lia) Hid)
    as (ds & Hds8 & Hdsall & Hdsval & Hdsup & _).
  destruct (payloadHex_text dataBytes Hbytes) as [Hpay _].
  assert (Hclean : cleaned (text_of_string (transcript id dataBytes))
                   = map upper_code ds
                       ++ map upper_code (flat_map byte_digits dataBytes)).
  { unfold cleaned, transcript.
    rewrite !text_of_string_app, !remove_spaces_app, Hdsup, Hpay.
    rewrite (hex_text_no_space upper_code upper_code_plain) by assumption.
    change (remove_spaces (text_of_string " ")) with (@nil N).
    cbn [app]. rewrite <- map_app. apply remove_0x_no_x.
    apply upper_digits_no_x, Forall_app. split; [assumption|].
    now apply flat_byte_digits_range. }
  assert (Hplen : List.length (map upper_code (flat_map byte_digits dataBytes))
                  = 16%nat).
  { rewrite length_map.
    destruct dataBytes as [|b0 [|b1 [|b2 [|b3 [|b4 [|b5 [|b6 [|b7 [|]]]]]]]]];
      try discriminate Hlen. reflexivity. }
  assert (Hdlen : List.length (map upper_code ds) = 8%nat)
    by now rewrite length_map.
  unfold App.handleDecode. fold (cleaned (text_of_string (transcript id dataBytes))).
  rewrite Hclean, substring_0_8, substring_8_24.
  set (A := map upper_code ds) in *.
  set (B := map upper_code (flat_map byte_digits dataBytes)) in *.
  assert (H24 : firstn 24 (A ++ B) = A ++ B)
    by (apply firstn_all2; rewrite length_app; lia).
  rewrite H24.
  assert (HA : firstn 8 (A ++ B) = A).
  { rewrite firstn_app, Hdlen, Nat.sub_diag, firstn_O, app_nil_r.
    apply firstn_all2. lia. }
  assert (HB : skipn 8 (A ++ B) = B).
  { rewrite skipn_app, Hdlen, Nat.sub_diag, skipn_O.
    rewrite skipn_all2 by lia. reflexivity. }
  rewrite HA, HB, Hdlen, Hplen. cbn [Nat.eqb negb orb].
  subst A B.
  rewrite (parseInt_hex upper_code upper_code_plain) by
    (try assumption; intros ->; discriminate Hds8).
  rewrite Hdsval, match_byte_digits by assumption.
  destruct dataBytes as [|b0 rest]; [discriminate Hlen|].
  cbn [map].
  change (Uint8Array_from
            (parseInt (map upper_code (byte_digits b0)) 16
               :: map (fun byte => parseInt byte 16)
                    (map (fun b => map upper_code (byte_digits b)) rest)))
    with (Uint8Array_from
            (map (fun byte => parseInt byte 16)
               (map (fun b => map upper_code (byte_digits b)) (b0 :: rest)))).
  rewrite read_payload_chunks by assumption.
  destruct rest as [|b1 [|b2 [|b3 [|b4 [|b5 [|b6 [|b7 [|]]]]]]]];
    try discriminate Hlen.
  rewrite decodeFrame_ok. eexists. split; reflexivity.
Qed.

(** X8. Pasting a frame as the generator panel shows it (the identifier
    in eight upper-case hex digits, a space, the payload bytes in hex),
    with or without a leading "0x", into [handleDecode] sets the result of
    [decodeFrame] on that frame. *)
Theorem handleDecode_transcript (id : Z) (dataBytes : list Z) :
  0 <= id < 2 ^ 32 ->
  List.length dataBytes = 8%nat ->
  Forall (fun b => 0 <= b < 256) dataBytes ->
  exists f,
    decodeFrame id (Uint8Array.of_buffer dataBytes) = Ok f
    /\ App.handleDecode (text_of_string (transcript id dataBytes))
       = App.SetDecodedResult f
    /\ App.handleDecode (text_of_string ("0x" ++ transcript id dataBytes))
       = App.SetDecodedResult f.
Proof. apply paste_transcript. Qed.

Lemma handleDecode_transcript_witness :
  exists f,
    decodeFrame 0x1581A002
      (Uint8Array.of_buffer [0xF0; 0x00; 0x00; 0x01; 0x44; 0x2F; 0x00; 0x00])
    = Ok f
    /\ App.handleDecode
         (text_of_string
            (transcript 0x1581A002
               [0xF0; 0x00; 0x00; 0x01; 0x44; 0x2F; 0x00; 0x00]))
       = App.SetDecodedResult f
    /\ App.handleDecode
         (text_of_string
            ("0x" ++ transcript 0x1581A002
                       [0xF0; 0x00; 0x00; 0x01; 0x44; 0x2F; 0x00; 0x00]))
       = App.SetDecodedResult f.
Proof.
  apply (handleDecode_transcript 0x1581A002
           [0xF0; 0x00; 0x00; 0x01; 0x44; 0x2F; 0x00; 0x00]).
  - change (2 ^ 32) with 4294967296. lia.
  - reflexivity.
  - repeat (apply Forall_cons; [lia|]). apply Forall_nil.
Defined.

(** *** Identifiers *)

Lemma sar_div (a n : Z) : 0 <= n < 32 -> sar a n = ToInt32 a / 2 ^ n.
Proof.
  intros Hn. unfold sar, ToUint32.
  rewrite (Z.mod_small n (2 ^ 32)) by (change (2 ^ 32) with 4294967296; lia).
  rewrite (Z.mod_small n 32) by lia. apply Z.shiftr_div_pow2. lia.
Qed.

Lemma buildFrameId_default (dst : Z) :
  buildFrameId dst None = buildFrameId dst (Some MONITOR_ADDR).
Proof. unfold buildFrameId. reflexivity. Qed.

(** X1. For any integers, [buildFrameId] masks both addresses to a byte
    and never rejects: the identifier is 0x15810000 plus the two low
    bytes, it fits the 29 bits of an extended identifier, and parsing it
    gives the constants and the masked addresses. *)
Theorem buildFrameId_masks (dst : Z) (src : option Z) :
  let s := match src with Some s => s | None => MONITOR_ADDR end in
  buildFrameId dst src = 0x15810000 + (dst mod 256) * 256 + s mod 256
  /\ 0 <= buildFrameId dst src < 2 ^ 29
  /\ parseFrameId (buildFrameId dst src)
     = {| mxrId := 0x15; moduleType := 0x81;
          dstAddr := dst mod 256; srcAddr := s mod 256 |}.
Proof.
  intros s.
  assert (Hclosed : buildFrameId dst src
                    = 0x15810000 + (dst mod 256) * 256 + s mod 256).
  { destruct src as [s'|]; [apply buildFrameId_closed|].
    rewrite buildFrameId_default. apply buildFrameId_closed. }
  assert (Hd : 0 <= dst mod 256 < 256) by (apply Z.mod_pos_bound; lia).
  assert (Hs : 0 <= s mod 256 < 256) by (apply Z.mod_pos_bound; lia).
  rewrite Hclosed. split; [reflexivity|]. split.
  - change (2 ^ 29) with 536870912. lia.
  - now apply parseFrameId_closed.
Qed.

(** X2. For any identifier [parseFrameId] returns fields within their
    widths (5, 8, 8 and 8 bits) that together are the low 29 bits of the
    identifier: bits 29 to 31 are dropped and nothing else is lost. *)
Theorem parseFrameId_fields (id : Z) :
  let p := parseFrameId id in
  0 <= mxrId p < 32
  /\ 0 <= moduleType p < 256
  /\ 0 <= dstAddr p < 256
  /\ 0 <= srcAddr p < 256
  /\ mxrId p * 2 ^ 24 + moduleType p * 2 ^ 16 + dstAddr p * 2 ^ 8 + srcAddr p
     = id mod 2 ^ 29.
Proof.
  cbv zeta. unfold parseFrameId. cbn [mxrId moduleType dstAddr srcAddr].
  rewrite !sar_div by lia. rewrite !band_0xFF.
  pose proof (ToInt32_range id) as Hr. pose proof (ToInt32_mod id) as Hm.
  set (t := ToInt32 id) in *.
  change (2 ^ 31) with 2147483648 in Hr.
  change (2 ^ 32) with 4294967296 in Hm.
  change (2 ^ 24) with 16777216. change (2 ^ 16) with 65536.
  change (2 ^ 8) with 256. change (2 ^ 29) with 536870912.
  rewrite band_0x1F
    by (change (2 ^ 31) with 2147483648; Z.div_mod_to_equations; lia).
  repeat split; Z.div_mod_to_equations; lia.
Qed.

(** *** Display string *)

(** X3. For an unsigned 32-bit identifier, [frameToDisplayString] is
    "ID: 0x", exactly eight characters that [parseInt] reads back as the
    identifier, "  DATA: " and the payload transcript; with eight payload
    bytes the whole string has 45 characters. *)
Theorem frameToDisplayString_format (frame : CanFrame) :
  0 <= id frame < 2 ^ 32 ->
  exists idHex,
    frameToDisplayString frame
    = ("ID: 0x" ++ idHex ++ "  DATA: "
       ++ payloadHex (Uint8Array.elements (data frame)))%string
    /\ String.length idHex = 8%nat
    /\ parseInt (text_of_string idHex) 16 = Some (id frame)
    /\ (List.length (Uint8Array.elements (data frame)) = 8%nat ->
        Forall (fun b => 0 <= b < 256) (Uint8Array.elements (data frame)) ->
        String.length (frameToDisplayString frame) = 45%nat).
Proof.
  intros Hid.
  destruct (hex_padded 8 (id frame) ltac:(lia) Hid)
    as (ds & Hlen & Hall & Hval & Hup & _).
  exists (padStart 8 "0" (toUpperCase (toStringRadix 16 (id frame)))).
  assert (Hl8 : String.length
                  (padStart 8 "0" (toUpperCase (toStringRadix 16 (id frame))))
                = 8%nat).
  { rewrite <- length_text_of_string, Hup, length_map. exact Hlen. }
  split; [reflexivity|]. split; [exact Hl8|]. split.
  - rewrite Hup, (parseInt_hex upper_code upper_code_plain)
      by (try assumption; intros ->; discriminate Hlen).
    now rewrite Hval.
  - intros Hd8 Hbytes. unfold frameToDisplayString.
    destruct (payloadHex_text (Uint8Array.elements (data frame)) Hbytes)
      as [_ Hplen].
    rewrite !length_string_app, Hl8, Hplen, Hd8
      by (intros E; rewrite E in Hd8; discriminate Hd8).
    reflexivity.
Qed.

Lemma frameToDisplayString_format_witness :
  exists idHex,
    frameToDisplayString
      {| id := 0x158101A0;
         data :=
                  Uint8Array.of_buffer
                    [0x00; 0x00; 0x04; 0x10; 0x44; 0x2F; 0x00; 0x00] |}
    = ("ID: 0x" ++ idHex ++ "  DATA: "
       ++ payloadHex [0x00; 0x00; 0x04; 0x10; 0x44; 0x2F; 0x00; 0x00])%string
    /\ String.length idHex = 8%nat
    /\ parseInt (text_of_string idHex) 16 = Some 0x158101A0
    /\ (List.length [0x00; 0x00; 0x04; 0x10; 0x44; 0x2F; 0x00; 0x00] = 8%nat ->
        Forall (fun b => 0 <= b < 256)
          [0x00; 0x00; 0x04; 0x10; 0x44; 0x2F; 0x00; 0x00] ->
        String.length
          (frameToDisplayString
             {| id := 0x158101A0;
                data :=
                  Uint8Array.of_buffer
                    [0x00; 0x00; 0x04; 0x10; 0x44; 0x2F; 0x00; 0x00] |})
        = 45%nat).
Proof.
  apply (frameToDisplayString_format
           {| id := 0x158101A0;
              data :=
                  Uint8Array.of_buffer
                    [0x00; 0x00; 0x04; 0x10; 0x44; 0x2F; 0x00; 0x00] |}).
  cbn [id]. change (2 ^ 32) with 4294967296. lia.
Defined.

(** *** Building a payload, continued *)

(** X5. A payload built for any 16-bit register address, with either
    wire kind, always decodes: as a command frame (no error flag, empty
    description) with the same register, and for an address outside the
    register table to the unknown-register text of the stored word. *)
Theorem built_payload_is_command (id reg : Z) (value : number)
    (isFloat : bool) :
  0 <= reg <= 0xFFFF ->
  exists payload f,
    buildDataPayload reg value isFloat = Ok payload
    /\ decodeFrame id payload = Ok f
    /\ register f = reg
    /\ isError f = false
    /\ errorDescription f = ""%string
    /\ (lookup REGISTERS reg = None ->
        decodedValue f
        = Str ("Unknown Reg: 0x"
               ++ toUpperCase (toStringRadix 16 (value_word value isFloat)))).
Proof.
  intros Hreg. rewrite buildDataPayload_eq.
  pose proof (value_word_range value isFloat) as Hw.
  set (w := value_word value isFloat) in *.
  assert (Hr : ToUint16 reg = reg).
  { unfold ToUint16. apply Z.mod_small. change (2 ^ 16) with 65536. lia. }
  rewrite Hr. cbn [be_bytes app].
  eexists. eexists. split; [reflexivity|].
  rewrite decodeFrame_ok. split; [reflexivity|].
  cbn [register decodedValue isError errorDescription].
  change ((reg / 256 ^ Z.of_nat 1) mod 256 * 256
          + (reg / 256 ^ Z.of_nat 0) mod 256)
    with (be_value (be_bytes 2 reg)).
  change [(w / 256 ^ Z.of_nat 3) mod 256; (w / 256 ^ Z.of_nat 2) mod 256;
          (w / 256 ^ Z.of_nat 1) mod 256; (w / 256 ^ Z.of_nat 0) mod 256]
    with (be_bytes 4 w).
  rewrite be_value_bytes_2 by (change (2 ^ 16) with 65536; lia).
  rewrite be_value_bytes_4 by assumption.
  repeat split.
  intros Hnone. unfold decoded_of_word. now rewrite Hnone.
Qed.

Lemma built_payload_is_command_witness :
  exists payload f,
    buildDataPayload 0x9999 (Z2num 700) true = Ok payload
    /\ decodeFrame 0x158101A0 payload = Ok f
    /\ register f = 0x9999
    /\ isError f = false
    /\ errorDescription f = ""%string
    /\ (lookup REGISTERS 0x9999 = None ->
        decodedValue f
        = Str ("Unknown Reg: 0x"
               ++ toUpperCase
                    (toStringRadix 16 (value_word (Z2num 700) true)))).
Proof. apply (built_payload_is_command 0x158101A0 0x9999 (Z2num 700) true). lia. Defined.

(** X6. [buildDataPayload] wraps instead of failing: a register address
    is taken modulo [2 ^ 16], and an integer value modulo [2 ^ 32] into the
    signed 32-bit range. *)
Theorem buildDataPayload_wraps (reg k z : Z) (value : number)
    (isFloat : bool) :
  - 2 ^ 53 < z < 2 ^ 53 ->
  buildDataPayload (reg + 65536 * k) value isFloat
  = buildDataPayload reg value isFloat
  /\ buildDataPayload reg (Z2num z) false
     = buildDataPayload reg (Z2num (ToInt32 z)) false.
Proof.
  intros Hz. rewrite !buildDataPayload_eq. split.
  - assert (Hw : ToUint16 (reg + 65536 * k) = ToUint16 reg).
    { unfold ToUint16. change (2 ^ 16) with 65536.
      rewrite Z.mul_comm. apply Z.mod_add. lia. }
    now rewrite Hw.
  - assert (Hw : value_word (Z2num z) false
                 = value_word (Z2num (ToInt32 z)) false).
    { unfold value_word.
      pose proof (ToInt32_range z) as Hr.
      change (2 ^ 31) with 2147483648 in Hr.
      rewrite !truncate_Z2num
        by (change (2 ^ 53) with 9007199254740992 in *; lia).
      now rewrite ToInt32_idem. }
    now rewrite Hw.
Qed.

Lemma buildDataPayload_wraps_witness :
  buildDataPayload (0x0400 + 65536 * 1) (Z2num 1) false
  = buildDataPayload 0x0400 (Z2num 1) false
  /\ buildDataPayload 0x0400 (Z2num 4294967297) false
     = buildDataPayload 0x0400 (Z2num (ToInt32 4294967297)) false.
Proof.
  apply (buildDataPayload_wraps 0x0400 1 4294967297 (Z2num 1) false).
  change (2 ^ 53) with 9007199254740992. lia.
Defined.

(** *** The generator effect *)

Section GeneratorFacts.
Variables parseFloat_input parseInt_input : text -> number.
Variables (targetAddr reg : Z) (def : RegisterDefinition).
Variables selectedRegAddr inputValue : text.
Hypothesis Hsel : parseInt selectedRegAddr 16 = Some reg.
Hypothesis Hdef : lookup REGISTERS reg = Some def.

Lemma generateFrame_eq :
App.generateFrame parseFloat_input parseInt_input targetAddr
  selectedRegAddr inputValue
= Ok (Some
        {| id := 0x15810000 + (targetAddr mod 256) * 256 + 0xA0;
           data :=
             Uint8Array.of_buffer
               (0 :: 0 :: be_bytes 2 reg
                  ++ be_bytes 4
                       (value_word
                          (request_value parseFloat_input parseInt_input
                             def inputValue)
                          (is_float_kind (type def)
                           && negb (is_read_kind (type def))))) |}).
Proof.
unfold App.generateFrame. rewrite Hsel, Hdef.
destruct (REGISTERS_address _ _ Hdef) as [Hrange _].
rewrite buildFrameId_default, buildFrameId_closed.
change (MONITOR_ADDR mod 256) with 0xA0.
assert (Hr : ToUint16 reg = reg).
{ unfold ToUint16. apply Z.mod_small. change (2 ^ 16) with 65536. lia. }
unfold request_value.
destruct (type def); cbn [RegisterType_eqb orb andb negb is_float_kind
                            is_read_kind];
  rewrite buildDataPayload_eq, Hr; reflexivity.
Qed.

End GeneratorFacts.

(** X10. For a read-only register of the table the generator sends a
    read request: identifier 0x1581 with the masked target address and
    source 0xA0, payload 00 00, the register address, and four zero data
    bytes, whatever the value field holds. *)
Theorem generateFrame_read_request
    (parseFloat_input parseInt_input : text -> number)
    (targetAddr reg : Z) (def : RegisterDefinition)
    (selectedRegAddr inputValue : text) :
  parseInt selectedRegAddr 16 = Some reg ->
  lookup REGISTERS reg = Some def ->
  is_read_kind (type def) = true ->
  App.generateFrame parseFloat_input parseInt_input targetAddr
    selectedRegAddr inputValue
  = Ok (Some
          {| id := 0x15810000 + (targetAddr mod 256) * 256 + 0xA0;
             data :=
               Uint8Array.of_buffer
                 [0; 0; reg / 256; reg mod 256; 0; 0; 0; 0] |}).
Proof.
  intros Hsel Hdef Hread.
  rewrite (generateFrame_eq _ _ _ _ _ _ _ Hsel Hdef).
  destruct (REGISTERS_address _ _ Hdef) as [Hrange _].
  unfold request_value. rewrite Hread, andb_false_r.
  change (be_bytes 4 (value_word (Z2num 0) false)) with [0; 0; 0; 0].
  cbn [be_bytes app].
  change (256 ^ Z.of_nat 1) with 256. change (256 ^ Z.of_nat 0) with 1.
  rewrite Z.div_1_r, (Z.mod_small (reg / 256))
    by (Z.div_mod_to_equations; lia).
  reflexivity.
Qed.

Lemma generateFrame_read_request_witness :
  App.generateFrame (fun _ => Z2num 700) (fun _ => Z2num 700) 1
    (text_of_string "0x0001") (text_of_string "700")
  = Ok (Some
          {| id := 0x15810000 + (1 mod 256) * 256 + 0xA0;
             data :=
               Uint8Array.of_buffer
                 [0; 0; 0x0001 / 256; 0x0001 mod 256; 0; 0; 0; 0] |}).
Proof.
  apply (generateFrame_read_request (fun _ => Z2num 700) (fun _ => Z2num 700)
           1 0x0001
           {| address := 0x0001; name := "Output Voltage";
              type := READ_ONLY_FLOAT; unit := Some "V"%string;
              description := "Current output voltage"; options := None |});
    reflexivity.
Defined.

(** The generated frame decodes to what was selected and sent. *)
Lemma generated_frame_decodes
    (parseFloat_input parseInt_input : text -> number)
    (targetAddr reg : Z) (def : RegisterDefinition)
    (selectedRegAddr inputValue : text) :
  parseInt selectedRegAddr 16 = Some reg ->
  lookup REGISTERS reg = Some def ->
  exists frame f,
    App.generateFrame parseFloat_input parseInt_input targetAddr
      selectedRegAddr inputValue = Ok (Some frame)
    /\ List.length (Uint8Array.elements (data frame)) = 8%nat
    /\ decodeFrame (id frame) (data frame) = Ok f
    /\ Types.mxrId f = 0x15
    /\ Types.moduleType f = 0x81
    /\ Types.dstAddr f = targetAddr mod 256
    /\ Types.srcAddr f = 0xA0
    /\ register f = reg
    /\ isError f = false
    /\ errorDescription f = ""%string
    /\ decodedValue f
       = roundtrip_value def
           (request_value parseFloat_input parseInt_input def inputValue).
Proof.
  intros Hsel Hdef.
  rewrite (generateFrame_eq _ _ _ _ _ _ _ Hsel Hdef).
  destruct (REGISTERS_address _ _ Hdef) as [Hrange _].
  set (v := request_value parseFloat_input parseInt_input def inputValue).
  set (flag := is_float_kind (type def) && negb (is_read_kind (type def))).
  pose proof (value_word_range v flag) as Hw.
  assert (Hword : value_word v flag = value_word v (is_float_kind (type def))).
  { subst flag. destruct (is_read_kind (type def)) eqn:Hread.
    - subst v. unfold request_value. rewrite Hread, andb_false_r.
      now destruct (is_float_kind (type def)).
    - now rewrite andb_true_r. }
  set (w := value_word v flag) in *.
  eexists. eexists. split; [reflexivity|].
  cbn [id data be_bytes app]. split; [reflexivity|].
  rewrite decodeFrame_ok. split; [reflexivity|].
  cbn [Types.mxrId Types.moduleType Types.dstAddr Types.srcAddr register
         isError errorDescription decodedValue].
  assert (Hd : 0 <= targetAddr mod 256 < 256) by (apply Z.mod_pos_bound; lia).
  rewrite (parseFrameId_closed (targetAddr mod 256) 0xA0) by lia.
  cbn [mxrId moduleType dstAddr srcAddr].
  change ((reg / 256 ^ Z.of_nat 1) mod 256 * 256
          + (reg / 256 ^ Z.of_nat 0) mod 256)
    with (be_value (be_bytes 2 reg)).
  change [(w / 256 ^ Z.of_nat 3) mod 256; (w / 256 ^ Z.of_nat 2) mod 256;
          (w / 256 ^ Z.of_nat 1) mod 256; (w / 256 ^ Z.of_nat 0) mod 256]
    with (be_bytes 4 w).
  rewrite be_value_bytes_2 by (change (2 ^ 16) with 65536; lia).
  rewrite be_value_bytes_4 by assumption.
  repeat split.
  subst w. rewrite Hword. now apply decoded_of_value_word.
Qed.

(** X11. For every register of the table the generated frame has eight
    payload bytes and decodes back with manufacturer id 0x15, module type
    0x81, the masked target address as destination, source 0xA0, the
    selected register, no error, and the decoded value of the value sent
    (zero for a read request, zero for an unparsable value field). *)
Theorem generateFrame_decodes
    (parseFloat_input parseInt_input : text -> number)
    (targetAddr reg : Z) (def : RegisterDefinition)
    (selectedRegAddr inputValue : text) :
  parseInt selectedRegAddr 16 = Some reg ->
  lookup REGISTERS reg = Some def ->
  exists frame f,
    App.generateFrame parseFloat_input parseInt_input targetAddr
      selectedRegAddr inputValue = Ok (Some frame)
    /\ List.length (Uint8Array.elements (data frame)) = 8%nat
    /\ decodeFrame (id frame) (data frame) = Ok f
    /\ Types.mxrId f = 0x15
    /\ Types.moduleType f = 0x81
    /\ Types.dstAddr f = targetAddr mod 256
    /\ Types.srcAddr f = 0xA0
    /\ register f = reg
    /\ isError f = false
    /\ errorDescription f = ""%string
    /\ decodedValue f
       = roundtrip_value def
           (request_value parseFloat_input parseInt_input def inputValue).
Proof. apply generated_frame_decodes. Qed.

Lemma generateFrame_decodes_witness :
  exists frame f,
    App.generateFrame (fun _ => Z2num 700) (fun _ => S754_nan) 1
      (text_of_string "0x0410") (text_of_string "700") = Ok (Some frame)
    /\ List.length (Uint8Array.elements (data frame)) = 8%nat
    /\ decodeFrame (id frame) (data frame) = Ok f
    /\ Types.mxrId f = 0x15
    /\ Types.moduleType f = 0x81
    /\ Types.dstAddr f = 1 mod 256
    /\ Types.srcAddr f = 0xA0
    /\ register f = 0x0410
    /\ isError f = false
    /\ errorDescription f = ""%string
    /\ decodedValue f = Num (Z2num 700).
Proof.
  apply (generateFrame_decodes (fun _ => Z2num 700) (fun _ => S754_nan)
           1 0x0410
           {| address := 0x0410; name := "Set Output Voltage";
              type := WRITE_ONLY_FLOAT; unit := Some "V"%string;
              description := "Target voltage setting"; options := None |});
    reflexivity.
Defined.

(** *** The register dropdown *)

Lemma insert_entry_In {V : Type} (k : Z) (v : V) (l : Record_number V)
    (e : Z * V) :
  In e (App.insert_entry k v l) -> e = (k, v) \/ In e l.
Proof.
  induction l as [|[k' v'] rest IH]; cbn [App.insert_entry].
  - intros [<- | []]. now left.
  - destruct (k <=? k').
    + intros [<- | H]; [now left | now right].
    + intros [<- | H]; [right; now left|].
      destruct (IH H) as [-> | Hin]; [now left | right; now right].
Qed.

Lemma Object_values_In {V : Type} (r : Record_number V) (v : V) :
  In v (App.Object_values r) -> exists k, In (k, v) r.
Proof.
  unfold App.Object_values. intros H. apply in_map_iff in H.
  destruct H as [[k v'] [Hv Hin]]. cbn in Hv. subst v'. exists k.
  induction r as [|[k0 v0] r IH]; [contradiction|].
  cbn [fold_right fst snd] in Hin. apply insert_entry_In in Hin.
  destruct Hin as [[= -> ->] | Hin]; [now left | right; now apply IH].
Qed.

(** The keys of the register table are distinct: every entry is the one
    its key finds. *)
Lemma REGISTERS_lookup_In (k : Z) (reg : RegisterDefinition) :
  In (k, reg) REGISTERS -> lookup REGISTERS k = Some reg.
Proof.
  unfold REGISTERS. cbn [In].
  intros H. repeat (destruct H as [[= <- <-] | H]; [reflexivity|]).
  contradiction.
Qed.

(** The value of a dropdown entry is read back as its address. *)
Lemma parseInt_option_value (a : Z) :
  0 <= a <= 0xFFFF ->
  parseInt (text_of_string ("0x" ++ padStart 4 "0" (toStringRadix 16 a))) 16
  = Some a.
Proof.
  intros Ha.
  destruct (hex_padded 4 a ltac:(lia)
              ltac:(change (16 ^ Z.of_nat 4) with 65536; lia))
    as (ds & Hlen & Hall & Hval & _ & Hlow).
  rewrite text_of_string_app, Hlow.
  change (text_of_string "0x") with [0x30; 0x78]%N.
  assert (Hparse : parseInt (map lower_code ds) 16 = Some a).
  { rewrite (parseInt_hex lower_code lower_code_plain)
      by (try assumption; intros ->; discriminate Hlen).
    now rewrite Hval. }
  unfold parseInt in *. cbn [app skip_spaces].
  change (is_space 0x30) with false. cbv iota.
  change (0x30 =? 0x2D)%N with false. change (0x30 =? 0x2B)%N with false.
  cbv iota. change (16 =? 16) with true. cbv iota.
  change ((0x30 =? 0x30) && ((0x78 =? 0x78) || (0x78 =? 0x58)))%N with true.
  cbv iota.
  destruct ds as [|d ds]; [discriminate Hlen|].
  pose proof (Forall_inv Hall) as Hd.
  destruct (lower_code_plain d Hd) as (_ & Hsp & _ & _ & _ & Hminus & Hplus).
  cbn [map skip_spaces] in Hparse. rewrite Hsp, Hminus, Hplus in Hparse.
  change (16 =? 16) with true in Hparse. cbv iota in Hparse.
  destruct ds as [|d' ds'].
  - cbn [map] in *. exact Hparse.
  - cbn [map] in *.
    pose proof (Forall_inv (Forall_inv_tail Hall)) as Hd'.
    destruct (lower_code_plain d' Hd') as (_ & _ & _ & Hx & HX & _).
    rewrite Hx, HX, andb_false_r in Hparse. exact Hparse.
Qed.

(** X12. Every entry of the register dropdown carries as its value a
    text that [parseInt] reads back as the address of its register, which
    the register table finds; selecting it always makes the generator
    produce a frame. *)
Theorem registerOptions_select (o : App.RegisterOption.t) :
  In o App.registerOptions ->
  exists reg,
    lookup REGISTERS (address reg) = Some reg
    /\ parseInt (text_of_string (App.RegisterOption.value o)) 16 = Some (address reg)
    /\ App.RegisterOption.type o = type reg
    /\ forall parseFloat_input parseInt_input targetAddr inputValue,
        exists frame,
          App.generateFrame parseFloat_input parseInt_input targetAddr
            (text_of_string (App.RegisterOption.value o)) inputValue
          = Ok (Some frame).
Proof.
  unfold App.registerOptions. intros H. apply in_map_iff in H.
  destruct H as [reg [<- Hin]]. cbn [App.RegisterOption.value App.RegisterOption.type].
  apply Object_values_In in Hin. destruct Hin as [k Hin].
  pose proof (REGISTERS_lookup_In k reg Hin) as Hlook.
  destruct (REGISTERS_address _ _ Hlook) as [Hrange Haddr].
  rewrite Haddr.
  pose proof (parseInt_option_value k Hrange) as Hparse.
  exists reg. rewrite Haddr. repeat split; try assumption.
  intros pf pi targetAddr inputValue.
  rewrite (generateFrame_eq pf pi targetAddr k reg _ inputValue Hparse Hlook).
  eexists. reflexivity.
Qed.

Lemma registerOptions_select_witness :
  exists reg,
    lookup REGISTERS (address reg) = Some reg
    /\ parseInt (text_of_string "0x0410") 16 = Some (address reg)
    /\ WRITE_ONLY_FLOAT = type reg
    /\ forall parseFloat_input parseInt_input targetAddr inputValue,
        exists frame,
          App.generateFrame parseFloat_input parseInt_input targetAddr
            (text_of_string "0x0410") inputValue
          = Ok (Some frame).
Proof.
  apply (registerOptions_select
           {| App.RegisterOption.label := "[0x0410] Set Output Voltage";
              App.RegisterOption.value := "0x0410";
              App.RegisterOption.type := WRITE_ONLY_FLOAT |}).
  vm_compute. do 9 right. left. reflexivity.
Defined.

(** *** The byte grid *)

(** X13. [ByteGrid] always shows eight cells; joined by spaces they are
    the hex transcript of the first eight bytes of the data, a missing
    byte being shown as 00. *)
Theorem ByteGrid_cells (data : Uint8Array.t) :
  List.length (ByteGrid.cells data) = 8%nat
  /\ join " " (map Some (ByteGrid.cells data))
     = payloadHex (firstn 8 (Uint8Array.elements data ++ repeat 0 8)).
Proof.
  split; [unfold ByteGrid.cells; now rewrite length_map, length_seq|].
  unfold ByteGrid.cells, payloadHex.
  destruct (Uint8Array.elements data)
    as [|b0 [|b1 [|b2 [|b3 [|b4 [|b5 [|b6 [|b7 rest]]]]]]]];
    cbn [seq map nth_error firstn app repeat];
    rewrite !toUpperCase_padStart; reflexivity.
Qed.

(** *** From the generator to the decoder *)

(** X14. For every register of the table, the frame the generator
    produces, pasted into the decoder as the generator panel shows it, is
    decoded to the selected register, the masked target address as
    destination, no error, and the decoded value of the value sent. *)
Theorem generated_frame_pastes_back
    (parseFloat_input parseInt_input : text -> number)
    (targetAddr reg : Z) (def : RegisterDefinition)
    (selectedRegAddr inputValue : text) :
  parseInt selectedRegAddr 16 = Some reg ->
  lookup REGISTERS reg = Some def ->
  exists frame f,
    App.generateFrame parseFloat_input parseInt_input targetAddr
      selectedRegAddr inputValue = Ok (Some frame)
    /\ App.handleDecode
         (text_of_string
            (transcript (id frame) (Uint8Array.elements (data frame))))
       = App.SetDecodedResult f
    /\ register f = reg
    /\ Types.dstAddr f = targetAddr mod 256
    /\ Types.srcAddr f = 0xA0
    /\ isError f = false
    /\ decodedValue f
       = roundtrip_value def
           (request_value parseFloat_input parseInt_input def inputValue).
Proof.
  intros Hsel Hdef.
  destruct (generated_frame_decodes parseFloat_input parseInt_input
              targetAddr reg def selectedRegAddr inputValue Hsel Hdef)
    as (frame & f & Hgen & Hlen & Hdec & _ & _ & Hdst & Hsrc & Hreg & Herr
        & _ & Hval).
  pose proof (generateFrame_eq parseFloat_input parseInt_input targetAddr
                reg def selectedRegAddr inputValue Hsel Hdef) as Heq.
  match type of Heq with
  | _ = Ok (Some ?x) => remember x as built eqn:Hbuilt
  end.
  rewrite Hgen in Heq.
  assert (Hframe : frame = built) by congruence.
  rewrite Hbuilt in Hframe. clear Heq Hbuilt built.
  assert (Hid : 0 <= id frame < 2 ^ 32).
  { rewrite Hframe. cbn [id].
    assert (0 <= targetAddr mod 256 < 256) by (apply Z.mod_pos_bound; lia).
    change (2 ^ 32) with 4294967296. lia. }
  assert (Hwhole : data frame
                   = Uint8Array.of_buffer (Uint8Array.elements (data frame))).
  { rewrite Hframe. cbn [data]. now rewrite elements_of_buffer. }
  assert (Hbytes : Forall (fun b => 0 <= b < 256)
                     (Uint8Array.elements (data frame))).
  { rewrite Hframe. cbn [data]. rewrite elements_of_buffer.
    repeat (apply Forall_cons; [lia|]).
    apply Forall_app. split; apply be_bytes_range. }
  destruct (paste_transcript (id frame) (Uint8Array.elements (data frame))
              Hid Hlen Hbytes)
    as (f' & Hdec' & Hpaste & _).
  rewrite <- Hwhole, Hdec in Hdec'. injection Hdec' as <-.
  exists frame, f. now repeat split.
Qed.

Lemma generated_frame_pastes_back_witness :
  exists frame f,
    App.generateFrame (fun _ => Z2num 700) (fun _ => S754_nan) 1
      (text_of_string "0x0410") (text_of_string "700") = Ok (Some frame)
    /\ App.handleDecode
         (text_of_string
            (transcript (id frame) (Uint8Array.elements (data frame))))
       = App.SetDecodedResult f
    /\ register f = 0x0410
    /\ Types.dstAddr f = 1 mod 256
    /\ Types.srcAddr f = 0xA0
    /\ isError f = false
    /\ decodedValue f = Num (Z2num 700).
Proof.
  apply (generated_frame_pastes_back (fun _ => Z2num 700) (fun _ => S754_nan)
           1 0x0410
           {| address := 0x0410; name := "Set Output Voltage";
              Types.type := WRITE_ONLY_FLOAT; unit := Some "V"%string;
              description := "Target voltage setting"; options := None |});
    reflexivity.
Defined.

(** *** Windows into a longer buffer *)

(** X19. [decodeFrame] reads the buffer of its argument, not the window:
    it fails with [RangeError] exactly when the buffer has fewer than
    eight bytes, and otherwise returns the frame of the first eight bytes
    of the buffer, with the transcript of the elements of the window, so
    all arrays over one buffer decode alike but for the transcript. *)
Theorem decodeFrame_reads_buffer (id : Z) (dataBytes : Uint8Array.t) :
  if (List.length (Uint8Array.buffer dataBytes) <? 8)%nat
  then decodeFrame id dataBytes = Throw RangeError
  else exists f8,
      decodeFrame id
        (Uint8Array.of_buffer (firstn 8 (Uint8Array.buffer dataBytes)))
      = Ok f8
      /\ decodeFrame id dataBytes
         = Ok (with_rawPayloadHex f8
                 (payloadHex (Uint8Array.elements dataBytes))).
Proof.
  destruct (Nat.ltb_spec (List.length (Uint8Array.buffer dataBytes)) 8)
    as [Hlt | Hge].
  - now apply decodeFrame_short.
  - destruct (Uint8Array.buffer dataBytes)
      as [|b0 [|b1 [|b2 [|b3 [|b4 [|b5 [|b6 [|b7 rest]]]]]]]] eqn:Hbuf;
      simpl in Hge; try lia.
    cbn [firstn].
    rewrite decodeFrame_ok,
      (decodeFrame_view id b0 b1 b2 b3 b4 b5 b6 b7 rest dataBytes Hbuf).
    eexists. split; reflexivity.
Qed.
